(** * Course-schedule generator: CSV parser, conflict detector, combination
      search and filter predicate

    Shallow embedding of
    - [src/context/filterContext.tsx] (the [csvParser] module: data model,
      [parseCourseCsv], [hasTimeConflict]),
    - [src/types/filters.ts] ([ScheduleFilters], [timeRanges]),
    - [src/utilities/scheduleGenerator.ts] ([meetsFilterCriteria],
      [groupSectionsByCourse], [generateNonConflictingSchedules]).

    Conventions of the embedding.
    - A JavaScript string is a [string] of 8-bit characters.
    - A JavaScript number is a [jsnum]: [Some z] for an integer value,
      [None] for [NaN].  Every number the program computes from a validated
      [HH:MM] time is an integer far below 2^53.  The three divisions of
      [meetsFilterCriteria] are carried out in [Q].
    - Arrays are lists; [Map<string, _>] is an association list in insertion
      order (the program iterates over it); [Set<string>] is a [gset string].
    - A loop with an early [return true] is an [existsb]; mutation of the
      working array and of the result array of the search is explicit state
      passing. *)

From Stdlib Require Import ZArith QArith String Ascii List Lia.
From stdpp Require Import base gmap strings list pretty.

Local Open Scope string_scope.
Local Open Scope list_scope.
Local Open Scope Z_scope.

(* ===================================================================== *)
(** ** JavaScript primitives used by the program *)
(* ===================================================================== *)

Module JS.

(** [s.split(sep)] for a one-character separator: never empty. *)
Fixpoint split (sep : ascii) (s : string) : list string :=
  match s with
  | EmptyString => [EmptyString]
  | String c s' =>
      if Ascii.eqb c sep then EmptyString :: split sep s'
      else match split sep s' with
           | [] => [String c EmptyString]
           | p :: ps => String c p :: ps
           end
  end.

(** White space and line terminators in the 8-bit range: TAB, LF, VT, FF, CR,
    SPACE and NBSP. *)
Definition isWhiteSpace (c : ascii) : bool :=
  let n := nat_of_ascii c in
  ((9 <=? n)%nat && (n <=? 13)%nat) || (n =? 32)%nat || (n =? 160)%nat.

Fixpoint trimStart (s : string) : string :=
  match s with
  | EmptyString => EmptyString
  | String c s' => if isWhiteSpace c then trimStart s' else s
  end.

(** Drops the trailing white space of [s]. *)
Fixpoint trimEnd (s : string) : string :=
  match s with
  | EmptyString => EmptyString
  | String c s' =>
      match trimEnd s' with
      | EmptyString => if isWhiteSpace c then EmptyString else String c EmptyString
      | t => String c t
      end
  end.

(** [s.trim()]. *)
Definition trim (s : string) : string := trimEnd (trimStart s).

(** A number: an integer or [NaN]. *)
Definition jsnum : Type := option Z.
Definition NaN : jsnum := None.

Definition isDigit (c : ascii) : bool :=
  let n := nat_of_ascii c in (48 <=? n)%nat && (n <=? 57)%nat.

Definition digitValue (c : ascii) : Z := Z.of_nat (nat_of_ascii c) - 48.

(** Value of a run of decimal digits, [None] when another character occurs. *)
Fixpoint digitsValue (acc : Z) (s : string) : jsnum :=
  match s with
  | EmptyString => Some acc
  | String c s' =>
      if isDigit c then digitsValue (10 * acc + digitValue c) s' else NaN
  end.

(** [Number(s)] on the decimal integer literals: surrounding white space is
    dropped, the empty string is 0, an optional sign is followed by at least
    one digit.  The other literal forms of the language (fractions, exponents,
    radix prefixes, [Infinity]) are outside the integer model and map to
    [NaN]; none of them matches the [HH:MM] pattern the parser enforces. *)
Definition Number (s : string) : jsnum :=
  match trim s with
  | EmptyString => Some 0
  | String "+" (String c r) => digitsValue 0 (String c r)
  | String "-" (String c r) => Z.opp <$> digitsValue 0 (String c r)
  | String "+" EmptyString => NaN
  | String "-" EmptyString => NaN
  | t => digitsValue 0 t
  end.

Definition mul (a b : jsnum) : jsnum :=
  match a, b with Some x, Some y => Some (x * y) | _, _ => NaN end.
Definition add (a b : jsnum) : jsnum :=
  match a, b with Some x, Some y => Some (x + y) | _, _ => NaN end.
Definition sub (a b : jsnum) : jsnum :=
  match a, b with Some x, Some y => Some (x - y) | _, _ => NaN end.

(** [Math.max] and [Math.min] of two numbers: [NaN] as soon as one is. *)
Definition Math_max (a b : jsnum) : jsnum :=
  match a, b with Some x, Some y => Some (Z.max x y) | _, _ => NaN end.
Definition Math_min (a b : jsnum) : jsnum :=
  match a, b with Some x, Some y => Some (Z.min x y) | _, _ => NaN end.

(** [a < b], [a >= b]: false as soon as one side is [NaN]. *)
Definition lt (a b : jsnum) : bool :=
  match a, b with Some x, Some y => x <? y | _, _ => false end.
Definition ge (a b : jsnum) : bool :=
  match a, b with Some x, Some y => y <=? x | _, _ => false end.

(** [arr[i]] of an array of numbers, used in arithmetic: [undefined] acts as
    [NaN] there. *)
Definition at_ (arr : list jsnum) (i : nat) : jsnum := default NaN (arr !! i).

(** [Array.prototype.sort(comparefn)].  The comparator may read and advance a
    state [S] (the generator's comparator draws from [Math.random]).  The
    language leaves the algorithm to the engine; the embedding fixes the
    in-place insertion sort: each element in turn is moved left past every
    element [tmp] of the sorted prefix for which [comparefn(tmp, element) > 0],
    stopping at the first one for which it is not.  [insertSorted] works on
    the prefix held in reverse (last element first).  A comparator result of
    [NaN] counts as 0. *)
Section Sort.
Context {A S : Type}.
Variable comparefn : A -> A -> S -> jsnum * S.

Fixpoint insertSorted (element : A) (revPrefix : list A) (st : S) : list A * S :=
  match revPrefix with
  | [] => ([element], st)
  | tmp :: rest =>
      let '(order, st1) := comparefn tmp element st in
      if 0 <? default 0 order then
        let '(r, st2) := insertSorted element rest st1 in (tmp :: r, st2)
      else (element :: tmp :: rest, st1)
  end.

Fixpoint sortLoop (pending : list A) (revPrefix : list A) (st : S) : list A * S :=
  match pending with
  | [] => (revPrefix, st)
  | x :: pending' =>
      let '(rp, st1) := insertSorted x revPrefix st in
      sortLoop pending' rp st1
  end.

Definition sort (arr : list A) (st : S) : list A * S :=
  let '(rp, st1) := sortLoop arr [] st in (rev rp, st1).
End Sort.

(** A [Map<string, V[]>] in insertion order.  [mapPush k v m] is
    [if (!m.has(k)) m.set(k, []); m.get(k)?.push(v)]. *)
Fixpoint mapPush {V : Type} (k : string) (v : V) (m : list (string * list V))
  : list (string * list V) :=
  match m with
  | [] => [(k, [v])]
  | (k', vs) :: m' =>
      if String.eqb k' k then (k', vs ++ [v]) :: m'
      else (k', vs) :: mapPush k v m'
  end.

(** [m.get(k)] *)
Fixpoint mapGet {V : Type} (k : string) (m : list (string * V)) : option V :=
  match m with
  | [] => None
  | (k', v) :: m' => if String.eqb k' k then Some v else mapGet k m'
  end.

(** [x < y] on the rationals. *)
Definition Qltb (x y : Q) : bool := negb (Qle_bool y x).

End JS.

(* ===================================================================== *)
(** ** Data model ([csvParser]) *)
(* ===================================================================== *)

Record CourseTime := { startTime : string; endTime : string }.

Inductive MeetingType := Online | InPerson.

Record CourseMeeting := {
  day : string;
  time : CourseTime;
  type : MeetingType
}.

(** [meetings] is the two-element tuple [[CourseMeeting, CourseMeeting]]. *)
Record CourseSection := {
  courseName : string;
  subject : string;
  courseCode : string;
  crn : string;
  meetings : CourseMeeting * CourseMeeting
}.

(** The tuple as the array the loops iterate over. *)
Definition meetingList (s : CourseSection) : list CourseMeeting :=
  [fst (meetings s); snd (meetings s)].

(** [`${section.subject}${section.courseCode}`] *)
Definition courseIdOf (s : CourseSection) : string :=
  subject s +:+ courseCode s.

#[global] Instance MeetingType_eq_dec : EqDecision MeetingType.
Proof. solve_decision. Defined.
#[global] Instance CourseTime_eq_dec : EqDecision CourseTime.
Proof. solve_decision. Defined.
#[global] Instance CourseMeeting_eq_dec : EqDecision CourseMeeting.
Proof. solve_decision. Defined.
#[global] Instance CourseSection_eq_dec : EqDecision CourseSection.
Proof. solve_decision. Defined.

(* ===================================================================== *)
(** ** Conflict detector *)
(* ===================================================================== *)

(** [const [h, m] = t.split(':').map(Number); h * 60 + m] *)
Definition hmToMinutes (t : string) : JS.jsnum :=
  let parts := map JS.Number (JS.split ":" t) in
  JS.add (JS.mul (JS.at_ parts 0) (Some 60)) (JS.at_ parts 1).

(** The body of the inner loop of [hasTimeConflict]: [true] when it reaches
    [return true] for this pair of meetings. *)
Definition meetingsOverlap (meeting1 meeting2 : CourseMeeting) : bool :=
  if negb (String.eqb (day meeting1) (day meeting2)) then false
  else
    let startTime1 := hmToMinutes (startTime (time meeting1)) in
    let endTime1 := hmToMinutes (endTime (time meeting1)) in
    let startTime2 := hmToMinutes (startTime (time meeting2)) in
    let endTime2 := hmToMinutes (endTime (time meeting2)) in
    JS.lt (JS.Math_max startTime1 startTime2) (JS.Math_min endTime1 endTime2).

Definition hasTimeConflict (section1 section2 : CourseSection) : bool :=
  existsb (fun meeting1 =>
    existsb (fun meeting2 => meetingsOverlap meeting1 meeting2)
            (meetingList section2))
    (meetingList section1).

(* ===================================================================== *)
(** ** Filters ([types/filters.ts]) *)
(* ===================================================================== *)

Inductive TimeOfDay := morning | afternoon | evening | TimeOfDay_any.
Inductive DeliveryMode := online | inPerson | hybrid | DeliveryMode_any.
Inductive ScheduleCompactness := compact | spread | ScheduleCompactness_any.
Inductive DaysOff := DaysOff_any | oneDay | twoDays.

Record ScheduleFilters := {
  isEnabled : bool;
  deliveryMode : DeliveryMode;
  timeOfDay : TimeOfDay;
  scheduleCompactness : ScheduleCompactness;
  daysOff : DaysOff
}.

Record HourRange := { range_start : Z; range_end : Z }.

(** [timeRanges[t]]; the program reads it only when [t] is not ['any']. *)
Definition timeRanges (t : TimeOfDay) : option HourRange :=
  match t with
  | morning => Some {| range_start := 8; range_end := 12 |}
  | afternoon => Some {| range_start := 12; range_end := 17 |}
  | evening => Some {| range_start := 17; range_end := 21 |}
  | TimeOfDay_any => None
  end.

Definition defaultFilters : ScheduleFilters :=
  {| isEnabled := false; deliveryMode := DeliveryMode_any;
     timeOfDay := TimeOfDay_any;
     scheduleCompactness := ScheduleCompactness_any;
     daysOff := DaysOff_any |}.

(* ===================================================================== *)
(** ** Filter predicate ([utilities/scheduleGenerator.ts]) *)
(* ===================================================================== *)

Record ScheduleCombination := {
  sections : list CourseSection;
  courseCount : nat
}.

Record Stats := {
  totalCombinations : nat;
  coursesIncluded : list string
}.

Record ScheduleGeneratorResult := {
  combinations : list ScheduleCombination;
  stats : Stats
}.

Definition timeToMinutes (t : string) : JS.jsnum := hmToMinutes t.

Definition isInTimeRange (t : string) (range : HourRange) : bool :=
  let minutes := timeToMinutes t in
  JS.ge minutes (Some (range_start range * 60))
  && JS.lt minutes (Some (range_end range * 60)).

(** The gap in hours, [NaN] as [None]. *)
Definition getGapBetweenMeetings (end_ start : string) : option Q :=
  match JS.sub (timeToMinutes start) (timeToMinutes end_) with
  | Some d => Some (Qdiv (inject_Z d) (inject_Z 60))
  | None => None
  end.

Record Slot := { slot_start : string; slot_end : string }.

Definition sortMeetings (ms : list Slot) : list Slot :=
  fst (JS.sort (fun a b (_ : unit) =>
                  (JS.sub (timeToMinutes (slot_start a))
                          (timeToMinutes (slot_start b)), tt))
               ms tt).

Definition getActiveDays (combination : list CourseSection) : gset string :=
  fold_left (fun activeDays section =>
    fold_left (fun activeDays meeting => activeDays ∪ {[ day meeting ]})
              (meetingList section) activeDays)
    combination ∅.

(** The number [daysOff] of the days-off check:
    [['Monday', ..., 'Friday'].length - activeDays.size]. *)
Definition daysOffCount (combination : list CourseSection) : Z :=
  let activeDays := getActiveDays combination in
  let totalActiveDays := Z.of_nat (size activeDays) in
  let weekdays :=
    Z.of_nat (length ["Monday"; "Tuesday"; "Wednesday"; "Thursday"; "Friday"]%string) in
  weekdays - totalActiveDays.

(** Days Off Check: [false] when the block returns [false]. *)
Definition daysOffCheck (combination : list CourseSection) (f : ScheduleFilters)
  : bool :=
  match daysOff f with
  | DaysOff_any => true
  | oneDay => daysOffCount combination =? 1
  | twoDays => daysOffCount combination =? 2
  end.

(** Delivery Mode Check. *)
Definition deliveryModeCheck (combination : list CourseSection)
  (f : ScheduleFilters) : bool :=
  let meetingTypes :=
    flat_map (fun section => map type (meetingList section)) combination in
  let onlineMeetingsCount :=
    length (filter (fun t => t = Online) meetingTypes) in
  let inPersonMeetingsCount :=
    length (filter (fun t => t = InPerson) meetingTypes) in
  let hasOnline := (0 <? onlineMeetingsCount)%nat in
  let hasInPerson := (0 <? inPersonMeetingsCount)%nat in
  let half := Qdiv (inject_Z (Z.of_nat (length meetingTypes))) (inject_Z 2) in
  match deliveryMode f with
  | DeliveryMode_any => true
  | online => negb (JS.Qltb (inject_Z (Z.of_nat onlineMeetingsCount)) half)
  | inPerson => negb (JS.Qltb (inject_Z (Z.of_nat inPersonMeetingsCount)) half)
  | hybrid => negb (negb hasOnline || negb hasInPerson)
  end.

(** Time of Day Check. *)
Definition timeOfDayCheck (combination : list CourseSection)
  (f : ScheduleFilters) : bool :=
  match timeRanges (timeOfDay f) with
  | None => true
  | Some range =>
      let meetingsInRange :=
        fold_left (fun count section =>
          (count + length (filter
             (fun meeting => isInTimeRange (startTime (time meeting)) range = true)
             (meetingList section)))%nat) combination 0%nat in
      let totalMeetings :=
        fold_left (fun count section =>
          (count + length (meetingList section))%nat) combination 0%nat in
      negb (JS.Qltb (inject_Z (Z.of_nat meetingsInRange))
                    (Qdiv (inject_Z (Z.of_nat totalMeetings)) (inject_Z 2)))
  end.

(** The inner [for (let i = 1; ...)] loop over one day's sorted meetings:
    the final value of [isValidDay]. *)
Fixpoint gapsAreValid (mode : ScheduleCompactness) (sortedMeetings : list Slot)
  : bool :=
  match sortedMeetings with
  | prev :: (cur :: _) as rest =>
      let gap := getGapBetweenMeetings (slot_end prev) (slot_start cur) in
      let over (bound : Z) :=
        match gap with Some g => JS.Qltb (inject_Z bound) g | None => false end in
      let under (bound : Z) :=
        match gap with Some g => JS.Qltb g (inject_Z bound) | None => false end in
      match mode with
      | compact => if over 2 then false else gapsAreValid mode rest
      | spread => if under 1 then false else gapsAreValid mode rest
      | ScheduleCompactness_any => gapsAreValid mode rest
      end
  | _ => true
  end.

(** Schedule Compactness Check. *)
Definition compactnessCheck (combination : list CourseSection)
  (f : ScheduleFilters) : bool :=
  match scheduleCompactness f with
  | ScheduleCompactness_any => true
  | mode =>
      let meetingsByDay :=
        fold_left (fun m section =>
          fold_left (fun m meeting =>
            JS.mapPush (day meeting)
              {| slot_start := startTime (time meeting);
                 slot_end := endTime (time meeting) |} m)
            (meetingList section) m)
          combination [] in
      let '(validDayCount, totalDaysWithMultipleMeetings) :=
        fold_left (fun '(valid, total) '(_, ms) =>
          if (length ms <? 2)%nat then (valid, total)
          else
            let sortedMeetings := sortMeetings ms in
            if gapsAreValid mode sortedMeetings
            then (S valid, S total) else (valid, S total))
          meetingsByDay (0%nat, 0%nat) in
      negb ((0 <? totalDaysWithMultipleMeetings)%nat
            && JS.Qltb (inject_Z (Z.of_nat validDayCount))
                 (Qdiv (inject_Z (Z.of_nat totalDaysWithMultipleMeetings))
                       (inject_Z 2)))
  end.

Definition meetsFilterCriteria (combination : list CourseSection)
  (f : ScheduleFilters) : bool :=
  if negb (isEnabled f) then true
  else if negb (daysOffCheck combination f) then false
  else if negb (deliveryModeCheck combination f) then false
  else if negb (timeOfDayCheck combination f) then false
  else if negb (compactnessCheck combination f) then false
  else true.

(* ===================================================================== *)
(** ** Combination search and result assembly *)
(* ===================================================================== *)

Definition hasConflictWithCombination (section : CourseSection)
  (currentSections : list CourseSection) : bool :=
  existsb (fun existingSection => hasTimeConflict section existingSection)
          currentSections.

Definition groupSectionsByCourse (sections : list CourseSection)
  : list (string * list CourseSection) :=
  fold_left (fun grouped section =>
               JS.mapPush (courseIdOf section) section grouped)
            sections [].

(** The two arrays the search mutates: the working array
    [currentCombination], shared by every recursive call, and the result
    array [combinations] of the enclosing function. *)
Record SearchState := {
  currentCombination : list CourseSection;
  found : list ScheduleCombination
}.

(** [currentCombination.push(section)] *)
Definition pushSection (section : CourseSection) (st : SearchState) : SearchState :=
  {| currentCombination := currentCombination st ++ [section];
     found := found st |}.

(** [currentCombination.pop()] *)
Definition popSection (st : SearchState) : SearchState :=
  {| currentCombination := removelast (currentCombination st);
     found := found st |}.

(** [combinations.push({sections: [...currentCombination], courseCount: ...})] *)
Definition record (st : SearchState) : SearchState :=
  {| currentCombination := currentCombination st;
     found := found st ++
       [ {| sections := currentCombination st;
            courseCount := length (currentCombination st) |} ] |}.

(** The [for (const section of courseSections)] loop of [buildCombinations];
    [next] is the recursive call [buildCombinations(_, courseIndex + 1)] and
    the flag is [addedSection]. *)
Fixpoint trySections (next : SearchState -> SearchState)
  (courseSections : list CourseSection) (addedSection : bool)
  (st : SearchState) : SearchState * bool :=
  match courseSections with
  | [] => (st, addedSection)
  | section :: more =>
      if negb (hasConflictWithCombination section (currentCombination st))
      then trySections next more true (popSection (next (pushSection section st)))
      else trySections next more addedSection st
  end.

Section Search.
Variable sectionsByCourse : list (string * list CourseSection).
Variable filters : ScheduleFilters.

(** [buildCombinations(currentCombination, courseIndex)]: [pending] is the
    part of [courseIds] from [courseIndex] on, so that
    [courseIndex === courseIds.length] is [pending = []] and the call with
    [courseIndex + 1] is the call on the tail. *)
Fixpoint buildCombinations (pending : list string) (st : SearchState)
  : SearchState :=
  match pending with
  | [] =>
      if meetsFilterCriteria (currentCombination st) filters
      then record st else st
  | courseId :: rest =>
      let courseSections := default [] (JS.mapGet courseId sectionsByCourse) in
      let '(st1, addedSection) :=
        trySections (buildCombinations rest) courseSections false st in
      if negb addedSection then buildCombinations rest st1 else st1
  end.
End Search.

(** The comparator passed to [combinations.sort].  [rnd k] stands for the
    value of [Math.random() - 0.5] at the [k]-th draw; the sort reads only
    its sign. *)
Definition compareCombinations (rnd : nat -> Z) (a b : ScheduleCombination)
  (k : nat) : JS.jsnum * nat :=
  if negb (courseCount b =? courseCount a)%nat
  then (Some (Z.of_nat (courseCount b) - Z.of_nat (courseCount a)), k)
  else (Some (rnd k), S k).

Definition generateNonConflictingSchedules (allSections : list CourseSection)
  (selectedCourseIds : gset string) (filters : ScheduleFilters)
  (rnd : nat -> Z) : ScheduleGeneratorResult :=
  let selectedSections :=
    filter (fun section => courseIdOf section ∈ selectedCourseIds) allSections in
  let sectionsByCourse := groupSectionsByCourse selectedSections in
  let courseIds := map fst sectionsByCourse in
  let st := buildCombinations sectionsByCourse filters courseIds
              {| currentCombination := []; found := [] |} in
  let sorted := fst (JS.sort (compareCombinations rnd) (found st) 0%nat) in
  {| combinations := sorted;
     stats := {| totalCombinations := length sorted;
                 coursesIncluded := courseIds |} |}.

(** [formatScheduleCombination] *)
Definition formatScheduleCombination (combination : ScheduleCombination) : string :=
  String.concat (String (ascii_of_nat 10) EmptyString)
    (map (fun section =>
            subject section +:+ " " +:+ courseCode section
            +:+ " (CRN: " +:+ crn section +:+ ")")
         (sections combination)).

(* ===================================================================== *)
(** ** Input validator and parser ([csvParser]) *)
(* ===================================================================== *)

Record ValidationResult := {
  isValid : bool;
  errors : list string;
  data : option (list CourseSection)
}.

Definition charIn (lo hi : nat) (c : ascii) : bool :=
  let n := nat_of_ascii c in (lo <=? n)%nat && (n <=? hi)%nat.

(** [([01]\d|2[0-3])] on two characters. *)
Definition isHourPair (a b : ascii) : bool :=
  (charIn 48 49 a && JS.isDigit b) || (Ascii.eqb a "2" && charIn 48 51 b).

(** [[0-5]\d] on two characters. *)
Definition isMinutePair (a b : ascii) : bool :=
  charIn 48 53 a && JS.isDigit b.

(** [/^([01]\d|2[0-3]):[0-5]\d-([01]\d|2[0-3]):[0-5]\d$/.test(t)] *)
Definition timePattern (t : string) : bool :=
  match t with
  | String h1 (String h2 (String c1 (String m1 (String m2 (String d
      (String h3 (String h4 (String c2 (String m3 (String m4 EmptyString))))))))))
    => isHourPair h1 h2 && Ascii.eqb c1 ":" && isMinutePair m1 m2
       && Ascii.eqb d "-"
       && isHourPair h3 h4 && Ascii.eqb c2 ":" && isMinutePair m3 m4
  | _ => false
  end.

(** [/^\d{n}$/.test(s)] *)
Definition allDigits (n : nat) (s : string) : bool :=
  (String.length s =? n)%nat && forallb JS.isDigit (list_ascii_of_string s).

(** [arr[i]] of an array of strings where the program expects a string;
    the index is in range at every use. *)
Definition strAt (arr : list string) (i : nat) : string :=
  default EmptyString (arr !! i).

Definition isValidTimeFormat (t : string) : bool :=
  if negb (timePattern t) then false
  else
    let parts := JS.split "-" t in
    let startMinutes := hmToMinutes (strAt parts 0) in
    let endMinutes := hmToMinutes (strAt parts 1) in
    JS.lt startMinutes endMinutes.

Definition isValidDay (d : string) : bool :=
  bool_decide (d ∈ ["Monday"; "Tuesday"; "Wednesday"; "Thursday"; "Friday";
                    "Saturday"; "Sunday"]%string).

(** [isValidMeetingType]: the meeting type of a valid label. *)
Definition parseMeetingType (t : string) : option MeetingType :=
  if String.eqb t "Online" then Some Online
  else if String.eqb t "In-person" then Some InPerson
  else None.

Definition isValidMeetingType (t : string) : bool :=
  match parseMeetingType t with Some _ => true | None => false end.

Definition parseTimeString (timeString : string) : CourseTime :=
  let parts := JS.split "-" timeString in
  {| startTime := strAt parts 0; endTime := strAt parts 1 |}.

Definition expectedHeader : string :=
  "CourseName,Subject,CourseCode,FirstMeetingDay,FirstMeetingTime,FirstMeetingType,SecondMeetingDay,SecondMeetingTime,SecondMeetingType,CRN".

(** What the row loop of [parseCourseCsv] carries from one line to the next. *)
Record ParseState := {
  ps_errors : list string;
  parsedCourses : list CourseSection;
  crnSet : gset string
}.

Definition addError (msg : string) (ps : ParseState) : ParseState :=
  {| ps_errors := ps_errors ps ++ [msg];
     parsedCourses := parsedCourses ps;
     crnSet := crnSet ps |}.

Definition addCrn (c : string) (ps : ParseState) : ParseState :=
  {| ps_errors := ps_errors ps;
     parsedCourses := parsedCourses ps;
     crnSet := crnSet ps ∪ {[ c ]} |}.

Definition addCourse (s : CourseSection) (ps : ParseState) : ParseState :=
  {| ps_errors := ps_errors ps;
     parsedCourses := parsedCourses ps ++ [s];
     crnSet := crnSet ps |}.

Definition isEmpty (s : string) : bool :=
  match s with EmptyString => true | _ => false end.

(** [`Line ${lineNumber}: ${what}`] *)
Definition lineError (lineNumber : nat) (what : string) : string :=
  "Line " +:+ pretty lineNumber +:+ ": " +:+ what.

(** One iteration of the row loop: [i] is the index of [line] in [lines]. *)
Definition parseRow (i : nat) (line : string) (ps : ParseState) : ParseState :=
  let lineNumber := (i + 1)%nat in
  let fields := JS.split "," line in
  if negb (length fields =? 10)%nat then
    addError (lineError lineNumber "Invalid number of fields") ps
  else
    let courseName_ := strAt fields 0 in
    let subject_ := strAt fields 1 in
    let courseCode_ := strAt fields 2 in
    let firstDay := strAt fields 3 in
    let firstTime := strAt fields 4 in
    let firstType := strAt fields 5 in
    let secondDay := strAt fields 6 in
    let secondTime := strAt fields 7 in
    let secondType := strAt fields 8 in
    let crn_ := strAt fields 9 in
    if isEmpty courseName_ || isEmpty subject_ || isEmpty courseCode_
       || isEmpty crn_ then
      addError (lineError lineNumber "Missing required fields") ps
    else if bool_decide (crn_ ∈ crnSet ps) then
      addError (lineError lineNumber ("Duplicate CRN " +:+ crn_)) ps
    else if negb (allDigits 5 crn_) then
      addError (lineError lineNumber ("Invalid CRN format " +:+ crn_)) ps
    else
      let ps := addCrn crn_ ps in
      if negb (allDigits 3 courseCode_) then
        addError (lineError lineNumber
                    ("Invalid course code format " +:+ courseCode_)) ps
      else if negb (isValidDay firstDay) then
        addError (lineError lineNumber
                    ("Invalid first meeting day " +:+ firstDay)) ps
      else if negb (isValidDay secondDay) then
        addError (lineError lineNumber
                    ("Invalid second meeting day " +:+ secondDay)) ps
      else if negb (isValidTimeFormat firstTime) then
        addError (lineError lineNumber
                    ("Invalid first meeting time format " +:+ firstTime)) ps
      else if negb (isValidTimeFormat secondTime) then
        addError (lineError lineNumber
                    ("Invalid second meeting time format " +:+ secondTime)) ps
      else
        match parseMeetingType firstType, parseMeetingType secondType with
        | None, _ =>
            addError (lineError lineNumber
                        ("Invalid first meeting type " +:+ firstType)) ps
        | Some _, None =>
            addError (lineError lineNumber
                        ("Invalid second meeting type " +:+ secondType)) ps
        | Some type1, Some type2 =>
            addCourse
              {| courseName := courseName_;
                 subject := subject_;
                 courseCode := courseCode_;
                 crn := crn_;
                 meetings :=
                   ({| day := firstDay; time := parseTimeString firstTime;
                       type := type1 |},
                    {| day := secondDay; time := parseTimeString secondTime;
                       type := type2 |}) |} ps
        end.

(** [for (let i = 1; i < lines.length; i++)]: [rows] is [lines] from index
    [i] on. *)
Fixpoint parseRows (i : nat) (rows : list string) (ps : ParseState) : ParseState :=
  match rows with
  | [] => ps
  | line :: rows' => parseRows (S i) rows' (parseRow i line ps)
  end.

(** [csvContent.split('\n').map(line => line.trim()).filter(line => line.length > 0)] *)
Definition splitLines (csvContent : string) : list string :=
  filter (fun line => (0 < String.length line)%nat)
         (map JS.trim (JS.split (ascii_of_nat 10) csvContent)).

(** No operation of the [try] block throws on a string input, so the [catch]
    block is not entered and has no counterpart here. *)
Definition parseCourseCsv (csvContent : string) : ValidationResult :=
  let lines := splitLines csvContent in
  let header := lines !! 0%nat in
  if bool_decide (header ≠ Some expectedHeader) then
    {| isValid := false; errors := ["Invalid CSV header format"]; data := None |}
  else
    let ps := parseRows 1 (drop 1 lines)
                {| ps_errors := []; parsedCourses := []; crnSet := ∅ |} in
    let isValid_ := (length (ps_errors ps) =? 0)%nat in
    {| isValid := isValid_;
       errors := ps_errors ps;
       data := if isValid_ then Some (parsedCourses ps) else None |}.

(* ===================================================================== *)
(** ** Specification-side notions *)
(* ===================================================================== *)

(** What [meetingsOverlap] is meant to decide: same day, and the half-open
    intervals of minutes since midnight meet. *)
Definition Overlap (m1 m2 : CourseMeeting) : Prop :=
  day m1 = day m2 /\
  exists s1 e1 s2 e2 : Z,
    hmToMinutes (startTime (time m1)) = Some s1 /\
    hmToMinutes (endTime (time m1)) = Some e1 /\
    hmToMinutes (startTime (time m2)) = Some s2 /\
    hmToMinutes (endTime (time m2)) = Some e2 /\
    Z.max s1 s2 < Z.min e1 e2.

Definition weekdayNames : list string :=
  ["Monday"; "Tuesday"; "Wednesday"; "Thursday"; "Friday"]%string.

(** Some meeting of the combination is on day [d]. *)
Definition hasMeetingOn (combination : list CourseSection) (d : string) : bool :=
  existsb (fun section =>
             existsb (fun meeting => String.eqb (day meeting) d)
                     (meetingList section))
          combination.

(** The days off as the specification words them: 5 minus the number of
    Monday-to-Friday days on which the combination has a meeting. *)
Definition weekdaysOff (combination : list CourseSection) : Z :=
  5 - Z.of_nat (length (List.filter (hasMeetingOn combination) weekdayNames)).

(** The combinations the search reaches from a working array [cur], as a
    pure function: reference for [buildCombinations]. *)
Fixpoint enumerate (sectionsByCourse : list (string * list CourseSection))
  (pending : list string) (cur : list CourseSection)
  : list (list CourseSection) :=
  match pending with
  | [] => [cur]
  | courseId :: rest =>
      let courseSections := default [] (JS.mapGet courseId sectionsByCourse) in
      let addable :=
        List.filter (fun s => negb (hasConflictWithCombination s cur))
                    courseSections in
      match addable with
      | [] => enumerate sectionsByCourse rest cur
      | _ => flat_map (fun s => enumerate sectionsByCourse rest (cur ++ [s]))
                      addable
      end
  end.

(** The record the base case pushes for a combination. *)
Definition mkCombination (c : list CourseSection) : ScheduleCombination :=
  {| sections := c; courseCount := length c |}.

(** The records pushed for the combinations of [cs] that pass the filter. *)
Definition accepted (filters : ScheduleFilters) (cs : list (list CourseSection))
  : list ScheduleCombination :=
  map mkCombination (List.filter (fun c => meetsFilterCriteria c filters) cs).

(** A call that leaves the working array as it found it and appends the
    accepted combinations of [F] to the result array. *)
Definition Appends (filters : ScheduleFilters)
  (next : SearchState -> SearchState)
  (F : list CourseSection -> list (list CourseSection)) : Prop :=
  forall st, next st =
    {| currentCombination := currentCombination st;
       found := found st ++ accepted filters (F (currentCombination st)) |}.

(** [sectionsByCourse.get(courseId) || []] *)
Definition sectionsOf (sectionsByCourse : list (string * list CourseSection))
  (courseId : string) : list CourseSection :=
  default [] (JS.mapGet courseId sectionsByCourse).

(** No two sections at different positions of [c] conflict. *)
Definition PairwiseFree (c : list CourseSection) : Prop :=
  forall (i j : nat) (s1 s2 : CourseSection),
    i <> j -> c !! i = Some s1 -> c !! j = Some s2 ->
    hasTimeConflict s1 s2 = false.

(** [t] is a way to extend the working array [cur] over the courses
    [pending]: one section of its own course for some of the courses, in
    their order, none in conflict with [cur] or with another one, and a
    course is left out only if each of its sections conflicts with [cur] or
    with the section taken for an earlier course. *)
Definition Extension (sectionsByCourse : list (string * list CourseSection))
  (pending : list string) (cur t : list CourseSection) : Prop :=
  sublist (map courseIdOf t) pending /\
  (forall s, s ∈ t -> s ∈ sectionsOf sectionsByCourse (courseIdOf s)) /\
  (forall s e, s ∈ t -> e ∈ cur -> hasTimeConflict s e = false) /\
  PairwiseFree t /\
  (forall pre courseId post,
     pending = pre ++ courseId :: post ->
     courseId ∉ map courseIdOf t ->
     forall s, s ∈ sectionsOf sectionsByCourse courseId ->
       exists e, (e ∈ cur \/ (e ∈ t /\ courseIdOf e ∈ pre)) /\
                 hasTimeConflict s e = true).

(** A conflict-free combination over the selected sections: sections of the
    input whose course identity is selected, at most one for a course
    identity, no two of them in conflict. *)
Definition ConflictFreeChoice (allSections : list CourseSection)
  (selectedCourseIds : gset string) (c : list CourseSection) : Prop :=
  (forall s, s ∈ c -> s ∈ allSections /\ courseIdOf s ∈ selectedCourseIds) /\
  NoDup (map courseIdOf c) /\
  PairwiseFree c.

(** A course identity of [order] without a section in [c] has each of its
    sections in conflict with a section that [c] holds for a course identity
    earlier in [order]. *)
Definition OmittedOnlyIfBlocked (allSections : list CourseSection)
  (order : list string) (c : list CourseSection) : Prop :=
  forall pre courseId post,
    order = pre ++ courseId :: post ->
    courseId ∉ map courseIdOf c ->
    forall s, s ∈ allSections -> courseIdOf s = courseId ->
      exists e, e ∈ c /\ courseIdOf e ∈ pre /\ hasTimeConflict s e = true.

(** The sections lists of the returned combinations. *)
Definition returnedCombinations (r : ScheduleGeneratorResult)
  : list (list CourseSection) :=
  map sections (combinations r).

(** The output is the set of all conflict-free combinations. *)
Definition ReturnsAllConflictFree (allSections : list CourseSection)
  (selectedCourseIds : gset string) (filters : ScheduleFilters)
  (rnd : nat -> Z) : Prop :=
  forall c,
    c ∈ returnedCombinations
          (generateNonConflictingSchedules allSections selectedCourseIds filters rnd)
    <-> ConflictFreeChoice allSections selectedCourseIds c.

(** The reversed prefix of the sort is in order for a relation [R] ("may
    stand before") when each element may stand before the ones listed ahead
    of it. *)
Fixpoint RevOrdered {A : Type} (R : A -> A -> Prop) (rp : list A) : Prop :=
  match rp with
  | [] => True
  | y :: rest => (forall z, z ∈ rest -> R z y) /\ RevOrdered R rest
  end.

(** [a] may stand before [b] in the result. *)
Definition MayPrecede (a b : ScheduleCombination) : Prop :=
  (courseCount b <= courseCount a)%nat.

(** Sample data. *)
Module Sample.

Definition meeting (d start end_ : string) (t : MeetingType) : CourseMeeting :=
  {| day := d; time := {| startTime := start; endTime := end_ |}; type := t |}.

Definition section (subj code crn_ : string) (m1 m2 : CourseMeeting)
  : CourseSection :=
  {| courseName := subj +:+ " " +:+ code; subject := subj; courseCode := code;
     crn := crn_; meetings := (m1, m2) |}.

Definition cprg305 : CourseSection :=
  {| courseName := "Software Testing and Deployment";
     subject := "CPRG"; courseCode := "305"; crn := "30922";
     meetings := (meeting "Monday" "13:00" "14:50" Online,
                  meeting "Thursday" "13:00" "14:50" InPerson) |}.

(** Monday 09:00-10:00. *)
Definition mon9 : CourseMeeting := meeting "Monday" "09:00" "10:00" InPerson.
(** Monday 10:00-11:00: starts when [mon9] ends. *)
Definition mon10 : CourseMeeting := meeting "Monday" "10:00" "11:00" InPerson.
(** Monday 09:59-11:00: starts one minute before [mon9] ends. *)
Definition mon959 : CourseMeeting := meeting "Monday" "09:59" "11:00" InPerson.

Definition math101 : CourseSection :=
  section "MATH" "101" "10001" mon9 (meeting "Tuesday" "09:00" "10:00" InPerson).
Definition phys201 : CourseSection :=
  section "PHYS" "201" "10002" mon959 (meeting "Wednesday" "09:00" "10:00" Online).
Definition chem301 : CourseSection :=
  section "CHEM" "301" "10003" mon10 (meeting "Friday" "09:00" "10:00" Online).

(** A second section of the course of [math101], clear of [phys201]. *)
Definition math101b : CourseSection :=
  section "MATH" "101" "10005"
    (meeting "Tuesday" "11:00" "12:00" InPerson)
    (meeting "Thursday" "11:00" "12:00" InPerson).

(** Meets on Wednesday and on Saturday. *)
Definition art110 : CourseSection :=
  section "ARTS" "110" "10004"
    (meeting "Wednesday" "13:00" "14:00" InPerson)
    (meeting "Saturday" "13:00" "14:00" InPerson).

Definition twoDaysOffFilters : ScheduleFilters :=
  {| isEnabled := true; deliveryMode := DeliveryMode_any;
     timeOfDay := TimeOfDay_any;
     scheduleCompactness := ScheduleCompactness_any;
     daysOff := twoDays |}.

Definition noRandom : nat -> Z := fun _ => 0.

Definition newline : string := String (ascii_of_nat 10) EmptyString.

Definition cprg305Row : string :=
  "Software Testing and Deployment,CPRG,305,Monday,13:00-14:50,Online,Thursday,13:00-14:50,In-person,30922".

Definition goodCsv : string := expectedHeader +:+ newline +:+ cprg305Row.

Definition badHeaderCsv : string :=
  "Course,Subject" +:+ newline +:+ cprg305Row.

End Sample.

(* ===================================================================== *)
(** ** The rest of [csvParser] *)
(* ===================================================================== *)

(** [getCourseSections] *)
Definition getCourseSections (courses : list CourseSection)
  (subject_ courseCode_ : string) : list CourseSection :=
  filter (fun course => subject course = subject_ /\ courseCode course = courseCode_)
         courses.

(** [set.add(x)] on a [Set<string>] listed in insertion order, as
    [Array.from] reads it. *)
Definition setAdd (x : string) (set : list string) : list string :=
  if bool_decide (x ∈ set) then set else set ++ [x].

(** [if (!m.has(k)) m.set(k, new Set()); m.get(k)?.add(v)] on a
    [Map<string, Set<string>>] in insertion order. *)
Fixpoint mapSetAdd (k v : string) (m : list (string * list string))
  : list (string * list string) :=
  match m with
  | [] => [(k, [v])]
  | (k', vs) :: m' =>
      if String.eqb k' k then (k', setAdd v vs) :: m'
      else (k', vs) :: mapSetAdd k v m'
  end.

(** The comparison of [sort()] without a comparator, on strings: by code
    units, a proper prefix first. *)
Definition defaultCompare (x y : string) (st : unit) : JS.jsnum * unit :=
  (Some (match String.compare x y with Lt => -1 | Eq => 0 | Gt => 1 end), st).

(** [arr.sort()] on an array of strings. *)
Definition sortStrings (arr : list string) : list string :=
  fst (JS.sort defaultCompare arr tt).

(** The object [extractUniqueCourses] returns.  [coursesBySubject] is the
    list of entries given to [Object.fromEntries], read by key with
    [JS.mapGet]; the keys of the entries are distinct. *)
Record UniqueCourses := {
  subjects : list string;
  coursesBySubject : list (string * list string)
}.

Definition extractUniqueCourses (courses : list CourseSection) : UniqueCourses :=
  let '(uniqueSubjects, uniqueCourses) :=
    fold_left (fun '(uniqueSubjects, uniqueCourses) course =>
                 (setAdd (subject course) uniqueSubjects,
                  mapSetAdd (subject course) (courseCode course) uniqueCourses))
              courses ([], []) in
  {| subjects := sortStrings uniqueSubjects;
     coursesBySubject :=
       map (fun '(subject_, codes) => (subject_, sortStrings codes)) uniqueCourses |}.

(* ===================================================================== *)
(** ** The callers of the parser and of the generator ([ConfigView]) *)
(* ===================================================================== *)

(** The selection [handleFileChange] installs after an upload:
    [new Set(result.data.map(course => `${course.subject}${course.courseCode}`))]
    for a valid result, the empty set otherwise. *)
Definition uploadSelection (result : ValidationResult) : gset string :=
  match data result with
  | Some courses =>
      if isValid result then list_to_set (map courseIdOf courses) else ∅
  | None => ∅
  end.

(** The branch [handleGenerateSchedules] takes on the generator's result. *)
Inductive GenerationOutcome :=
  | Generated (results : ScheduleGeneratorResult)
  | NoSchedulesFound.

Definition generationOutcome (results : ScheduleGeneratorResult)
  : GenerationOutcome :=
  if (0 <? length (combinations results))%nat then Generated results
  else NoSchedulesFound.

(* ===================================================================== *)
(** ** Well-formed sections *)
(* ===================================================================== *)

(** Both ends of the time are times of day, the end after the start. *)
Definition ValidTime (t : CourseTime) : Prop :=
  exists s e : Z,
    hmToMinutes (startTime t) = Some s /\ hmToMinutes (endTime t) = Some e /\
    0 <= s /\ s < e /\ e < 1440.

Definition ValidMeeting (m : CourseMeeting) : Prop :=
  isValidDay (day m) = true /\ ValidTime (time m).

(** What the parser checks of a row before it keeps it. *)
Definition ValidSection (s : CourseSection) : Prop :=
  courseName s <> EmptyString /\ subject s <> EmptyString /\
  allDigits 3 (courseCode s) = true /\ allDigits 5 (crn s) = true /\
  ValidMeeting (fst (meetings s)) /\ ValidMeeting (snd (meetings s)).

(** [e] is a diagnostic of line [n]. *)
Definition ErrorOfLine (e : string) (n : nat) : Prop :=
  exists what, e = lineError n what.

(** What the row loop keeps true of its state: the kept sections are
    well-formed, their CRNs are distinct and recorded in [crnSet]. *)
Definition ParseInv (ps : ParseState) : Prop :=
  Forall ValidSection (parsedCourses ps) /\
  NoDup (map crn (parsedCourses ps)) /\
  (forall s, s ∈ parsedCourses ps -> crn s ∈ crnSet ps).

(** The numbers [ns] go strictly up, starting at [lo] or later. *)
Fixpoint IncreasingFrom (lo : nat) (ns : list nat) : Prop :=
  match ns with
  | [] => True
  | n :: ns' => (lo <= n)%nat /\ IncreasingFrom (S n) ns'
  end.

(** The line numbers [ns] go strictly up, within [lo..hi]. *)
Definition IncreasingWithin (lo hi : nat) (ns : list nat) : Prop :=
  IncreasingFrom lo ns /\ Forall (fun n => (n <= hi)%nat) ns.

(** More sample data. *)
Module Sample2.

(** A header, a good row, a row with a bad day, a blank line, a row with
    too few fields. *)
Definition mixedCsv : string :=
  expectedHeader +:+ Sample.newline +:+ Sample.cprg305Row +:+ Sample.newline +:+
  "Calculus,MATH,101,Funday,09:00-10:00,Online,Tuesday,09:00-10:00,Online,10001"
  +:+ Sample.newline +:+ "   " +:+ Sample.newline +:+ "Physics,PHYS,201".

End Sample2.

(** The strings of [l] are in strictly ascending order of code units. *)
Definition StrictlyAscending (l : list string) : Prop :=
  forall (i j : nat) (a b : string),
    (i < j)%nat -> l !! i = Some a -> l !! j = Some b -> String.ltb a b = true.

(** [a] is not after [b] in the order of code units. *)
Definition StringLe (a b : string) : Prop := String.leb a b = true.

(* ===================================================================== *)
(** ** Notions for the filter predicate *)
(* ===================================================================== *)

(** All the meetings of a combination, section after section. *)
Definition allMeetings (combination : list CourseSection) : list CourseMeeting :=
  flat_map meetingList combination.

(** The number of meetings of type [t]. *)
Definition meetingsOfType (t : MeetingType) (combination : list CourseSection)
  : nat :=
  length (filter (fun m => type m = t) (allMeetings combination)).

(** The start time [t] counts for the band [b]. *)
Definition inBand (t : string) (b : TimeOfDay) : bool :=
  match timeRanges b with
  | Some range => isInTimeRange t range
  | None => false
  end.

(** The number of meetings that start in the band [b]. *)
Definition meetingsInBand (b : TimeOfDay) (combination : list CourseSection)
  : nat :=
  length (filter (fun m => inBand (startTime (time m)) b = true)
                 (allMeetings combination)).

(** Filters with [isEnabled] true and the given choices. *)
Definition enabledFilters (d : DeliveryMode) (t : TimeOfDay)
  (k : ScheduleCompactness) (o : DaysOff) : ScheduleFilters :=
  {| isEnabled := true; deliveryMode := d; timeOfDay := t;
     scheduleCompactness := k; daysOff := o |}.

(* ===================================================================== *)
(** ** Formatting and the schedule context *)
(* ===================================================================== *)

(** The line of one section in [formatScheduleCombination]. *)
Definition formatLine (s : CourseSection) : string :=
  subject s +:+ " " +:+ courseCode s +:+ " (CRN: " +:+ crn s +:+ ")".

(** The character [c] does not occur in [s]. *)
Fixpoint freeOf (c : ascii) (s : string) : Prop :=
  match s with
  | EmptyString => True
  | String x s' => x <> c /\ freeOf c s'
  end.

Definition lineFeed : ascii := ascii_of_nat 10.

(** The state of [ScheduleProvider]: [scheduleResults] and
    [currentCombinationIndex]. *)
Record ScheduleContext := {
  scheduleResults : option ScheduleGeneratorResult;
  currentCombinationIndex : Z
}.

(** [scheduleResults?.combinations[currentCombinationIndex] || null] *)
Definition currentCombinationOf (ctx : ScheduleContext)
  : option ScheduleCombination :=
  match scheduleResults ctx with
  | Some results =>
      if currentCombinationIndex ctx <? 0 then None
      else combinations results !! Z.to_nat (currentCombinationIndex ctx)
  | None => None
  end.

(** [scheduleResults?.combinations.length || 0] *)
Definition totalCombinationsOf (ctx : ScheduleContext) : Z :=
  match scheduleResults ctx with
  | Some results => Z.of_nat (length (combinations results))
  | None => 0
  end.

(** [nextCombination], called on the rendered state. *)
Definition nextCombination (ctx : ScheduleContext) : ScheduleContext :=
  match scheduleResults ctx with
  | Some results =>
      if currentCombinationIndex ctx
         <? Z.of_nat (length (combinations results)) - 1
      then {| scheduleResults := scheduleResults ctx;
              currentCombinationIndex := currentCombinationIndex ctx + 1 |}
      else ctx
  | None => ctx
  end.

(** [previousCombination], called on the rendered state. *)
Definition previousCombination (ctx : ScheduleContext) : ScheduleContext :=
  if 0 <? currentCombinationIndex ctx
  then {| scheduleResults := scheduleResults ctx;
          currentCombinationIndex := currentCombinationIndex ctx - 1 |}
  else ctx.

(* ===================================================================== *)
(** ** The embedding on the sample data *)
(* ===================================================================== *)

Example hmToMinutes_sample :
  hmToMinutes "13:05" = Some 785 /\ hmToMinutes "00:00" = Some 0
  /\ hmToMinutes "1305" = JS.NaN.
Proof. by vm_compute. Qed.

Example parseCourseCsv_sample :
  parseCourseCsv Sample.goodCsv =
  {| isValid := true; errors := []; data := Some [Sample.cprg305] |}.
Proof. by vm_compute. Qed.

Example generate_sample :
  generateNonConflictingSchedules [Sample.cprg305] {[ "CPRG305"%string ]}
    defaultFilters Sample.noRandom =
  {| combinations := [ mkCombination [Sample.cprg305] ];
     stats := {| totalCombinations := 1; coursesIncluded := ["CPRG305"%string] |} |}.
Proof. by vm_compute. Qed.

(** Two courses that both meet on Monday morning: the second one is left
    out of the only combination. *)
Example generate_skips_blocked_course :
  returnedCombinations
    (generateNonConflictingSchedules [Sample.math101; Sample.phys201]
       {[ "MATH101"; "PHYS201" ]}%string defaultFilters Sample.noRandom)
  = [[Sample.math101]].
Proof. by vm_compute. Qed.

(* ===================================================================== *)
(** ** Conflict detector: symmetry and the half-open overlap rule *)
(* ===================================================================== *)

Lemma Math_max_comm a b : JS.Math_max a b = JS.Math_max b a.
Proof. destruct a, b; simpl; try reflexivity. by rewrite Z.max_comm. Qed.

Lemma Math_min_comm a b : JS.Math_min a b = JS.Math_min b a.
Proof. destruct a, b; simpl; try reflexivity. by rewrite Z.min_comm. Qed.

Lemma String_eqb_sym (s t : string) : String.eqb s t = String.eqb t s.
Proof.
  destruct (String.eqb_spec s t) as [->|Hne].
  - symmetry. apply String.eqb_refl.
  - symmetry. apply String.eqb_neq. congruence.
Qed.

Lemma meetingsOverlap_sym m1 m2 : meetingsOverlap m1 m2 = meetingsOverlap m2 m1.
Proof.
  unfold meetingsOverlap.
  rewrite (String_eqb_sym (day m1) (day m2)).
  rewrite (Math_max_comm (hmToMinutes (startTime (time m1)))).
  rewrite (Math_min_comm (hmToMinutes (endTime (time m1)))).
  reflexivity.
Qed.

Lemma meetingsOverlap_spec m1 m2 : meetingsOverlap m1 m2 = true <-> Overlap m1 m2.
Proof.
  unfold meetingsOverlap, Overlap.
  destruct (String.eqb_spec (day m1) (day m2)) as [Hd|Hd]; simpl.
  - destruct (hmToMinutes (startTime (time m1))) as [s1|],
             (hmToMinutes (endTime (time m1))) as [e1|],
             (hmToMinutes (startTime (time m2))) as [s2|],
             (hmToMinutes (endTime (time m2))) as [e2|]; simpl;
      try (split; [discriminate
                  | intros (_ & ? & ? & ? & ? & ? & ? & ? & ? & _); discriminate]).
    rewrite Z.ltb_lt. split.
    + intros H. split; [done|]. exists s1, e1, s2, e2. done.
    + intros (_ & ? & ? & ? & ? & ? & ? & ? & ? & H). by simplify_eq.
  - split; [discriminate | intros [? _]; done].
Qed.

Lemma hasTimeConflict_exists a b :
  hasTimeConflict a b = true <->
  exists m1 m2, m1 ∈ meetingList a /\ m2 ∈ meetingList b
                /\ meetingsOverlap m1 m2 = true.
Proof.
  unfold hasTimeConflict. rewrite existsb_exists. split.
  - intros (m1 & H1 & H). apply existsb_exists in H as (m2 & H2 & H).
    exists m1, m2. by rewrite <- !list_elem_of_In in *.
  - intros (m1 & m2 & H1 & H2 & H). exists m1. rewrite <- list_elem_of_In.
    split; [done|]. apply existsb_exists. exists m2. by rewrite <- list_elem_of_In.
Qed.

Lemma hasTimeConflict_comm a b : hasTimeConflict a b = hasTimeConflict b a.
Proof.
  apply eq_true_iff_eq. rewrite !hasTimeConflict_exists.
  split; intros (m1 & m2 & ? & ? & H); exists m2, m1; by rewrite meetingsOverlap_sym.
Qed.

(** C5. [hasTimeConflict] is symmetric: for all sections [a] and [b],
    [hasTimeConflict a b] equals [hasTimeConflict b a]. *)
Theorem hasTimeConflict_symmetric (a b : CourseSection) :
  hasTimeConflict a b = hasTimeConflict b a.
Proof. apply hasTimeConflict_comm. Qed.

(** C6. [hasTimeConflict] is the half-open overlap test on minutes since
    midnight: two sections conflict exactly when a meeting of one and a
    meeting of the other are on the same day with
    [max(startA, startB) < min(endA, endB)].  In particular two same-day
    meetings of which one ends when the other starts do not overlap, and
    two sections conflict when a meeting of one ends one minute after a
    same-day meeting of the other starts (each meeting ending after it
    starts). *)
Theorem hasTimeConflict_half_open :
  (forall a b : CourseSection,
     hasTimeConflict a b = true <->
     exists m1 m2, m1 ∈ meetingList a /\ m2 ∈ meetingList b /\ Overlap m1 m2)
  /\
  (forall (m1 m2 : CourseMeeting) (s1 e1 s2 e2 : Z),
     day m1 = day m2 ->
     hmToMinutes (startTime (time m1)) = Some s1 ->
     hmToMinutes (endTime (time m1)) = Some e1 ->
     hmToMinutes (startTime (time m2)) = Some s2 ->
     hmToMinutes (endTime (time m2)) = Some e2 ->
     e1 = s2 ->
     meetingsOverlap m1 m2 = false /\ meetingsOverlap m2 m1 = false)
  /\
  (forall (a b : CourseSection) (m1 m2 : CourseMeeting) (s1 e1 s2 e2 : Z),
     m1 ∈ meetingList a -> m2 ∈ meetingList b ->
     day m1 = day m2 ->
     hmToMinutes (startTime (time m1)) = Some s1 ->
     hmToMinutes (endTime (time m1)) = Some e1 ->
     hmToMinutes (startTime (time m2)) = Some s2 ->
     hmToMinutes (endTime (time m2)) = Some e2 ->
     s1 < e1 -> s2 < e2 ->
     e1 = s2 + 1 ->
     hasTimeConflict a b = true /\ hasTimeConflict b a = true).
Proof.
  split; [|split].
  - intros a b. rewrite hasTimeConflict_exists.
    split; intros (m1 & m2 & H1 & H2 & H); exists m1, m2;
      (split; [done|split; [done|]]); by apply meetingsOverlap_spec.
  - intros m1 m2 s1 e1 s2 e2 Hd Hs1 He1 Hs2 He2 ->.
    rewrite (meetingsOverlap_sym m2 m1).
    assert (meetingsOverlap m1 m2 = false) as H; [|by rewrite H].
    destruct (meetingsOverlap m1 m2) eqn:E; [|done].
    apply meetingsOverlap_spec in E as (_ & ? & ? & ? & ? & ? & ? & ? & ? & Hlt).
    simplify_eq. lia.
  - intros a b m1 m2 s1 e1 s2 e2 H1 H2 Hd Hs1 He1 Hs2 He2 Hv1 Hv2 ->.
    rewrite (hasTimeConflict_comm b a).
    assert (hasTimeConflict a b = true) as H; [|by rewrite H].
    apply hasTimeConflict_exists. exists m1, m2. split; [done|split; [done|]].
    apply meetingsOverlap_spec. split; [done|].
    exists s1, (s2 + 1), s2, e2. repeat split; try done. lia.
Qed.

(** Monday 09:00-10:00 against Monday 10:00-11:00 and against Monday
    09:59-11:00. *)
Lemma hasTimeConflict_half_open_witness :
  (meetingsOverlap Sample.mon9 Sample.mon10 = false
   /\ meetingsOverlap Sample.mon10 Sample.mon9 = false)
  /\ (hasTimeConflict Sample.math101 Sample.phys201 = true
      /\ hasTimeConflict Sample.phys201 Sample.math101 = true).
Proof.
  destruct hasTimeConflict_half_open as (_ & Hadjacent & Hminute). split.
  - apply (Hadjacent Sample.mon9 Sample.mon10 540 600 600 660);
      reflexivity.
  - apply (Hminute Sample.math101 Sample.phys201 Sample.mon9 Sample.mon959
             540 600 599 660);
      try reflexivity; try lia; vm_compute; constructor.
Defined.

(* ===================================================================== *)
(** ** Filter predicate: the days-off check *)
(* ===================================================================== *)

Lemma meetsFilterCriteria_disabled c f :
  isEnabled f = false -> meetsFilterCriteria c f = true.
Proof. intros H. unfold meetsFilterCriteria. by rewrite H. Qed.

(** With the other three checks at ['any'], the predicate is the days-off
    check. *)
Lemma meetsFilterCriteria_daysOff_only c d :
  meetsFilterCriteria c
    {| isEnabled := true; deliveryMode := DeliveryMode_any;
       timeOfDay := TimeOfDay_any;
       scheduleCompactness := ScheduleCompactness_any; daysOff := d |}
  = daysOffCheck c
      {| isEnabled := true; deliveryMode := DeliveryMode_any;
         timeOfDay := TimeOfDay_any;
         scheduleCompactness := ScheduleCompactness_any; daysOff := d |}.
Proof.
  unfold meetsFilterCriteria, deliveryModeCheck, timeOfDayCheck, compactnessCheck.
  simpl. by destruct (daysOffCheck _ _).
Qed.

Lemma daysOffCheck_oneDay c f :
  daysOff f = oneDay -> (daysOffCheck c f = true <-> daysOffCount c = 1).
Proof. intros H. unfold daysOffCheck. rewrite H. apply Z.eqb_eq. Qed.

Lemma daysOffCheck_twoDays c f :
  daysOff f = twoDays -> (daysOffCheck c f = true <-> daysOffCount c = 2).
Proof. intros H. unfold daysOffCheck. rewrite H. apply Z.eqb_eq. Qed.

Lemma activeDays_meetings (ms : list CourseMeeting) (acc : gset string) d :
  d ∈ fold_left (fun activeDays meeting => activeDays ∪ {[ day meeting ]}) ms acc
  <-> d ∈ acc \/ exists m, m ∈ ms /\ day m = d.
Proof.
  revert acc. induction ms as [|m ms IH]; intros acc; simpl.
  - split; [by left|]. intros [?|(m & Hm & _)]; [done|by apply elem_of_nil in Hm].
  - rewrite IH, elem_of_union, elem_of_singleton. split.
    + intros [[?| ->]|(m' & Hm & Hd)].
      * by left.
      * right. exists m. split; [by left|done].
      * right. exists m'. split; [by right|done].
    + intros [?|(m' & Hm & Hd)]; [by left; left|].
      apply elem_of_cons in Hm as [->|Hm]; [left; by right|].
      right. by exists m'.
Qed.

Lemma fold_left_step {A B} (f : A -> B -> A) x l a :
  fold_left f (x :: l) a = fold_left f l (f a x).
Proof. reflexivity. Qed.

Lemma activeDays_sections (c : list CourseSection) (acc : gset string) d :
  d ∈ fold_left (fun activeDays section =>
         fold_left (fun activeDays meeting => activeDays ∪ {[ day meeting ]})
                   (meetingList section) activeDays) c acc
  <-> d ∈ acc \/ exists s m, s ∈ c /\ m ∈ meetingList s /\ day m = d.
Proof.
  revert acc. induction c as [|s c IH]; intros acc.
  - simpl. split; [by left|].
    intros [?|(s & m & Hs & _)]; [done|by apply elem_of_nil in Hs].
  - rewrite fold_left_step, IH. cbv beta.
    rewrite (activeDays_meetings (meetingList s) acc d). split.
    + intros [[?|(m & Hm & Hd)]|(s' & m & Hs & Hm & Hd)].
      * by left.
      * right. exists s, m. split; [by left|done].
      * right. exists s', m. split; [by right|done].
    + intros [?|(s' & m & Hs & Hm & Hd)]; [by left; left|].
      apply elem_of_cons in Hs as [->|Hs].
      * left. right. by exists m.
      * right. by exists s', m.
Qed.

(** [getActiveDays] holds the day of every meeting, whatever the day. *)
Lemma getActiveDays_elem c d :
  d ∈ getActiveDays c <-> exists s m, s ∈ c /\ m ∈ meetingList s /\ day m = d.
Proof.
  unfold getActiveDays. rewrite activeDays_sections. split; [|by right].
  intros [H|H]; [by apply not_elem_of_empty in H|done].
Qed.

Lemma hasMeetingOn_true c d :
  hasMeetingOn c d = true <-> exists s m, s ∈ c /\ m ∈ meetingList s /\ day m = d.
Proof.
  unfold hasMeetingOn. rewrite existsb_exists. split.
  - intros (s & Hs & H). apply existsb_exists in H as (m & Hm & H).
    apply String.eqb_eq in H. exists s, m. by rewrite <- !list_elem_of_In in *.
  - intros (s & m & Hs & Hm & Hd). exists s. rewrite <- list_elem_of_In.
    split; [done|]. apply existsb_exists. exists m. rewrite <- list_elem_of_In.
    split; [done|]. by apply String.eqb_eq.
Qed.

(** The count of the code is the count of the specification as long as no
    meeting is on a Saturday or a Sunday (or on any day outside Monday to
    Friday). *)
Lemma daysOffCount_weekdays_only c :
  (forall s m, s ∈ c -> m ∈ meetingList s -> day m ∈ weekdayNames) ->
  daysOffCount c = weekdaysOff c.
Proof.
  intros Hwk. unfold daysOffCount, weekdaysOff. simpl length.
  assert (getActiveDays c =
          list_to_set (List.filter (hasMeetingOn c) weekdayNames)) as ->.
  { apply set_eq. intros d.
    rewrite elem_of_list_to_set, list_elem_of_In, filter_In, <- list_elem_of_In.
    rewrite getActiveDays_elem, hasMeetingOn_true. split; [|tauto].
    intros (s & m & Hs & Hm & <-). split; [by eapply Hwk|by exists s, m]. }
  rewrite size_list_to_set; [done|].
  apply NoDup_ListNoDup, List.NoDup_filter, NoDup_ListNoDup.
  unfold weekdayNames. compute_done.
Qed.

(** C1. The days-off check takes [daysOff] as 5 minus the number of distinct
    Monday-to-Friday days with a meeting, weekend meetings not reducing it.
    The code counts every distinct day: on a combination that meets on
    Monday, Tuesday, Wednesday and Saturday it finds 1 day off where the
    claim gives 2, and rejects it under ['twoDays']. *)
Theorem daysOff_counts_weekend_days :
  let c := [Sample.math101; Sample.art110] in
  weekdaysOff c = 2
  /\ daysOffCount c = 1
  /\ daysOffCheck c Sample.twoDaysOffFilters = false
  /\ meetsFilterCriteria c Sample.twoDaysOffFilters = false.
Proof. by vm_compute. Qed.

(* ===================================================================== *)
(** ** Parser: the shape of the result *)
(* ===================================================================== *)

(** C8. When the first non-empty trimmed line is not the expected header
    (or there is no such line), [parseCourseCsv] returns [isValid] false,
    [data] null and exactly one error, whatever follows. *)
Theorem parseCourseCsv_bad_header (csvContent : string) :
  splitLines csvContent !! 0%nat <> Some expectedHeader ->
  let r := parseCourseCsv csvContent in
  isValid r = false /\ data r = None
  /\ errors r = ["Invalid CSV header format"]%string
  /\ length (errors r) = 1%nat.
Proof.
  intros H. unfold parseCourseCsv. cbv zeta.
  rewrite bool_decide_true by done. done.
Qed.

Lemma parseCourseCsv_bad_header_witness :
  splitLines Sample.badHeaderCsv !! 0%nat <> Some expectedHeader
  /\ isValid (parseCourseCsv Sample.badHeaderCsv) = false
  /\ data (parseCourseCsv Sample.badHeaderCsv) = None
  /\ errors (parseCourseCsv Sample.badHeaderCsv)
     = ["Invalid CSV header format"]%string
  /\ length (errors (parseCourseCsv Sample.badHeaderCsv)) = 1%nat.
Proof.
  assert (splitLines Sample.badHeaderCsv !! 0%nat <> Some expectedHeader) as H.
  { vm_compute. discriminate. }
  split; [exact H|]. exact (parseCourseCsv_bad_header Sample.badHeaderCsv H).
Defined.

(** C9. The result of [parseCourseCsv] has [isValid] true exactly when its
    error list is empty, and [data] non-null exactly when [isValid] is
    true. *)
Theorem parseCourseCsv_valid_iff (csvContent : string) :
  let r := parseCourseCsv csvContent in
  (isValid r = true <-> errors r = [])
  /\ (data r <> None <-> isValid r = true).
Proof.
  unfold parseCourseCsv. cbv zeta. case_bool_decide as Hh; simpl.
  - split; split; intros H; done.
  - destruct (ps_errors _) as [|e es]; simpl.
    + split; split; intros H; done.
    + split; split; intros H; done.
Qed.

(* ===================================================================== *)
(** ** The sort *)
(* ===================================================================== *)

Section SortFacts.
Context {A S : Type}.
Variable comparefn : A -> A -> S -> JS.jsnum * S.

Lemma insertSorted_perm x rp st :
  fst (JS.insertSorted comparefn x rp st) ≡ₚ x :: rp.
Proof.
  revert st. induction rp as [|y rp IH]; intros st; simpl; [done|].
  destruct (comparefn y x st) as [order st1].
  destruct (0 <? default 0 order); [|done].
  specialize (IH st1). destruct (JS.insertSorted comparefn x rp st1) as [r st2].
  simpl in *. rewrite IH. apply Permutation_swap.
Qed.

Lemma sortLoop_perm pending rp st :
  fst (JS.sortLoop comparefn pending rp st) ≡ₚ pending ++ rp.
Proof.
  revert rp st. induction pending as [|x pending IH]; intros rp st; simpl; [done|].
  pose proof (insertSorted_perm x rp st) as Hins.
  destruct (JS.insertSorted comparefn x rp st) as [rp1 st1]. simpl in Hins.
  rewrite IH, Hins. by rewrite Permutation_middle.
Qed.

Lemma sort_perm arr st : fst (JS.sort comparefn arr st) ≡ₚ arr.
Proof.
  unfold JS.sort. pose proof (sortLoop_perm arr [] st) as H.
  destruct (JS.sortLoop comparefn arr [] st) as [rp st1]. simpl in *.
  rewrite <- Permutation_rev. by rewrite H, app_nil_r.
Qed.

(** Sorting under a comparator that respects a transitive relation [R]
    ("may stand before"): a positive result for [(a, b)] only when [b] may
    stand before [a], another result only when [a] may stand before [b]. *)
Variable R : A -> A -> Prop.
Hypothesis R_trans : forall a b c, R a b -> R b c -> R a c.
Hypothesis comparefn_pos : forall a b st,
  0 < default 0 (fst (comparefn a b st)) -> R b a.
Hypothesis comparefn_nonpos : forall a b st,
  ~ 0 < default 0 (fst (comparefn a b st)) -> R a b.

Lemma insertSorted_ordered x rp st :
  RevOrdered R rp -> RevOrdered R (fst (JS.insertSorted comparefn x rp st)).
Proof.
  revert st. induction rp as [|y rp IH]; intros st Hrp; simpl.
  - split; [|done]. intros z Hz. by apply elem_of_nil in Hz.
  - destruct Hrp as [Hy Hrp].
    pose proof (comparefn_pos y x st) as Hpos.
    pose proof (comparefn_nonpos y x st) as Hnonpos.
    destruct (comparefn y x st) as [order st1]. simpl in Hpos, Hnonpos.
    destruct (Z.ltb_spec 0 (default 0 order)) as [Hlt|Hge].
    + specialize (IH st1 Hrp). pose proof (insertSorted_perm x rp st1) as Hperm.
      destruct (JS.insertSorted comparefn x rp st1) as [r st2]. simpl in *.
      split; [|done]. intros z Hz. rewrite Hperm in Hz.
      apply elem_of_cons in Hz as [->|Hz]; auto.
    + simpl. assert (R y x) as Hyx by (apply Hnonpos; lia).
      split; [|done]. intros z Hz. apply elem_of_cons in Hz as [->|Hz]; [done|].
      eapply R_trans; [|exact Hyx]. by apply Hy.
Qed.

Lemma sortLoop_ordered pending rp st :
  RevOrdered R rp -> RevOrdered R (fst (JS.sortLoop comparefn pending rp st)).
Proof.
  revert rp st. induction pending as [|x pending IH]; intros rp st Hrp; simpl; [done|].
  pose proof (insertSorted_ordered x rp st Hrp) as Hins.
  destruct (JS.insertSorted comparefn x rp st) as [rp1 st1]. by apply IH.
Qed.

Lemma RevOrdered_lookup rp :
  RevOrdered R rp ->
  forall i j a b, (i < j)%nat -> rev rp !! i = Some a -> rev rp !! j = Some b -> R a b.
Proof.
  induction rp as [|y rp IH]; intros Hrp i j a b Hij Ha Hb; simpl in *.
  - by rewrite lookup_nil in Ha.
  - destruct Hrp as [Hy Hrp].
    pose proof (lookup_lt_Some _ _ _ Hb) as Hj.
    rewrite length_app, length_rev in Hj. simpl in Hj.
    rewrite lookup_app_l in Ha by (rewrite length_rev; lia).
    destruct (decide (j < length rp)%nat) as [Hlt|Hge].
    + rewrite lookup_app_l in Hb by (rewrite length_rev; lia).
      exact (IH Hrp i j a b Hij Ha Hb).
    + rewrite lookup_app_r in Hb by (rewrite length_rev; lia).
      rewrite length_rev in Hb. replace (j - length rp)%nat with 0%nat in Hb by lia.
      simpl in Hb. simplify_eq. apply Hy.
      apply list_elem_of_In, in_rev, list_elem_of_In. by eapply list_elem_of_lookup_2.
Qed.

Lemma sort_ordered arr st i j a b :
  (i < j)%nat ->
  fst (JS.sort comparefn arr st) !! i = Some a ->
  fst (JS.sort comparefn arr st) !! j = Some b ->
  R a b.
Proof.
  unfold JS.sort. pose proof (sortLoop_ordered arr [] st I) as H.
  destruct (JS.sortLoop comparefn arr [] st) as [rp st1]. simpl in *.
  by apply RevOrdered_lookup.
Qed.
End SortFacts.

(* ===================================================================== *)
(** ** Grouping by course identity *)
(* ===================================================================== *)

Section MapPush.
Context {V : Type}.
Implicit Types (m : list (string * list V)) (k : string) (v : V).

Lemma mapGet_None_keys {W} k (m : list (string * W)) :
  JS.mapGet k m = None <-> k ∉ map fst m.
Proof.
  induction m as [|[k' vs] m IH]; simpl.
  - split; [intros _ H; by apply elem_of_nil in H|done].
  - destruct (String.eqb_spec k' k) as [->|Hne].
    + split; [done|]. intros H. exfalso. apply H. by left.
    + rewrite IH. split.
      * intros H Hin. apply elem_of_cons in Hin as [?|?]; [congruence|done].
      * intros H Hin. apply H. by right.
Qed.

Lemma mapPush_keys k v m :
  map fst (JS.mapPush k v m) =
  if bool_decide (k ∈ map fst m) then map fst m else map fst m ++ [k].
Proof.
  induction m as [|[k' vs] m IH].
  - case_bool_decide as H; [by apply elem_of_nil in H|done].
  - cbn [JS.mapPush]. destruct (String.eqb_spec k' k) as [->|Hne].
    + clear IH. cbn [map fst]. case_bool_decide as H; [done|]. exfalso. apply H. by left.
    + cbn [map fst]. rewrite IH.
      repeat case_bool_decide; try done.
      * exfalso. match goal with H : _ ∉ _ |- _ => apply H end. by right.
      * match goal with H : _ ∈ _ :: _ |- _ => apply elem_of_cons in H as [?|?] end;
          [congruence|done].
Qed.

Lemma mapGet_mapPush k v m k' :
  JS.mapGet k' (JS.mapPush k v m) =
  if decide (k = k') then Some (default [] (JS.mapGet k m) ++ [v])
  else JS.mapGet k' m.
Proof.
  induction m as [|[k0 vs] m IH]; simpl.
  - destruct (String.eqb_spec k k') as [->|Hne]; [by rewrite decide_True|by rewrite decide_False].
  - destruct (String.eqb_spec k0 k) as [->|Hne]; simpl.
    + destruct (String.eqb_spec k k') as [->|Hne']; [by rewrite decide_True|by rewrite decide_False].
    + rewrite IH. destruct (String.eqb_spec k0 k') as [->|Hne'].
      * by rewrite decide_False by congruence.
      * done.
Qed.
End MapPush.

Lemma groupSectionsByCourse_snoc l s :
  groupSectionsByCourse (l ++ [s]) =
  JS.mapPush (courseIdOf s) s (groupSectionsByCourse l).
Proof. unfold groupSectionsByCourse. by rewrite fold_left_app. Qed.

Lemma groupSectionsByCourse_keys_NoDup l :
  NoDup (map fst (groupSectionsByCourse l)).
Proof.
  induction l as [|s l IH] using rev_ind; [constructor|].
  rewrite groupSectionsByCourse_snoc, mapPush_keys. case_bool_decide; [done|].
  apply NoDup_app. split; [done|]. split; [|apply NoDup_singleton].
  intros x Hx Hs. apply list_elem_of_singleton in Hs as ->. done.
Qed.

Lemma groupSectionsByCourse_keys l courseId :
  courseId ∈ map fst (groupSectionsByCourse l) <->
  exists s, s ∈ l /\ courseIdOf s = courseId.
Proof.
  induction l as [|s l IH] using rev_ind.
  - split; [intros H; by apply elem_of_nil in H|intros (s & H & _); by apply elem_of_nil in H].
  - rewrite groupSectionsByCourse_snoc, mapPush_keys.
    assert (courseId ∈ map fst (groupSectionsByCourse l) ++ [courseIdOf s] <->
            exists x, x ∈ l ++ [s] /\ courseIdOf x = courseId) as Hgen.
    { rewrite elem_of_app, IH, list_elem_of_singleton. split.
      - intros [(x & Hx & Hid)| ->].
        + exists x. split; [|done]. apply elem_of_app. by left.
        + exists s. split; [|done]. apply elem_of_app. right. by apply list_elem_of_singleton.
      - intros (x & Hx & Hid). apply elem_of_app in Hx as [Hx|Hx].
        + left. by exists x.
        + apply list_elem_of_singleton in Hx as ->. by right. }
    case_bool_decide as Hin; [|done].
    rewrite <- Hgen, elem_of_app, list_elem_of_singleton.
    split; [by left|]. intros [?| ->]; done.
Qed.

Lemma sectionsOf_group l courseId :
  sectionsOf (groupSectionsByCourse l) courseId =
  filter (fun s => courseIdOf s = courseId) l.
Proof.
  unfold sectionsOf. induction l as [|s l IH] using rev_ind; [done|].
  rewrite groupSectionsByCourse_snoc, mapGet_mapPush, filter_app.
  destruct (decide (courseIdOf s = courseId)) as [Heq|Hne]; simpl.
  - rewrite filter_cons_True by done. rewrite filter_nil. subst. by rewrite IH.
  - rewrite filter_cons_False by done. rewrite filter_nil, app_nil_r. done.
Qed.

Lemma sectionsOf_group_elem l courseId s :
  s ∈ sectionsOf (groupSectionsByCourse l) courseId <->
  s ∈ l /\ courseIdOf s = courseId.
Proof. rewrite sectionsOf_group, list_elem_of_filter. tauto. Qed.

(* ===================================================================== *)
(** ** The search against its reference enumeration *)
(* ===================================================================== *)

Section SearchFacts.
Variable G : list (string * list CourseSection).
Variable filters : ScheduleFilters.

Lemma accepted_app cs1 cs2 :
  accepted filters (cs1 ++ cs2) = accepted filters cs1 ++ accepted filters cs2.
Proof. unfold accepted. by rewrite List.filter_app, map_app. Qed.

Lemma trySections_spec next F :
  Appends filters next F ->
  forall courseSections addedSection st,
    let addable :=
      List.filter (fun s => negb (hasConflictWithCombination s (currentCombination st)))
                  courseSections in
    trySections next courseSections addedSection st =
      ({| currentCombination := currentCombination st;
          found := found st ++
            accepted filters (flat_map (fun s => F (currentCombination st ++ [s])) addable) |},
       addedSection || negb (bool_decide (addable = []))).
Proof.
  intros Hnext. induction courseSections as [|s more IH]; intros added st; simpl.
  - destruct st; simpl. unfold accepted; simpl. by rewrite app_nil_r, orb_false_r.
  - destruct (hasConflictWithCombination s (currentCombination st)) eqn:Hc; simpl.
    + apply IH.
    + assert (Hpop : popSection (next (pushSection s st)) =
        {| currentCombination := currentCombination st;
           found := found st ++ accepted filters (F (currentCombination st ++ [s])) |}).
      { rewrite Hnext. unfold popSection; simpl. by rewrite removelast_last. }
      rewrite Hpop, IH. simpl. rewrite accepted_app, app_assoc.
      by rewrite orb_true_r.
Qed.

Lemma buildCombinations_spec pending :
  Appends filters (buildCombinations G filters pending) (enumerate G pending).
Proof.
  induction pending as [|courseId rest IH]; intros st; simpl.
  - unfold accepted; simpl. unfold record.
    destruct (meetsFilterCriteria (currentCombination st) filters); simpl.
    + reflexivity.
    + destruct st; simpl. by rewrite app_nil_r.
  - rewrite (trySections_spec _ _ IH). simpl.
    destruct (List.filter _ _) as [|s0 l] eqn:Hf; simpl.
    + rewrite IH. simpl. unfold accepted at 1; simpl. by rewrite app_nil_r.
    + reflexivity.
Qed.
End SearchFacts.

Lemma PairwiseFree_nil : PairwiseFree [].
Proof. intros i j s1 s2 _ H. by rewrite lookup_nil in H. Qed.

Lemma PairwiseFree_cons s t :
  PairwiseFree (s :: t) <->
  (forall x, x ∈ t -> hasTimeConflict x s = false) /\ PairwiseFree t.
Proof.
  split.
  - intros H. split.
    + intros x Hx. apply list_elem_of_lookup in Hx as [i Hi].
      apply (H (S i) 0%nat); [lia|done|done].
    + intros i j s1 s2 Hij H1 H2. apply (H (S i) (S j)); [lia|done|done].
  - intros [Hs Ht] i j s1 s2 Hij H1 H2.
    destruct i as [|i], j as [|j]; simpl in *; simplify_eq.
    + rewrite hasTimeConflict_comm. apply Hs. eapply list_elem_of_lookup_2; eauto.
    + apply Hs. eapply list_elem_of_lookup_2; eauto.
    + apply (Ht i j); [lia|done|done].
Qed.

Lemma hasConflictWithCombination_false s cur :
  hasConflictWithCombination s cur = false <->
  forall e, e ∈ cur -> hasTimeConflict s e = false.
Proof.
  unfold hasConflictWithCombination. split.
  - intros H e He. destruct (hasTimeConflict s e) eqn:E; [|done].
    assert (existsb (fun x => hasTimeConflict s x) cur = true) as Hx; [|congruence].
    apply existsb_exists. exists e. by rewrite <- list_elem_of_In.
  - intros H. destruct (existsb _ cur) eqn:E; [|done].
    apply existsb_exists in E as (e & He & Hc). rewrite <- list_elem_of_In in He.
    rewrite (H e He) in Hc. done.
Qed.

Lemma hasConflictWithCombination_true s cur :
  hasConflictWithCombination s cur = true <->
  exists e, e ∈ cur /\ hasTimeConflict s e = true.
Proof.
  unfold hasConflictWithCombination. rewrite existsb_exists.
  split; intros (e & He & Hc); exists e; by rewrite ?list_elem_of_In in *.
Qed.

Section Enumerate.
Variable G : list (string * list CourseSection).
Hypothesis G_keys : forall courseId s,
  s ∈ sectionsOf G courseId -> courseIdOf s = courseId.

Lemma addable_In s cur courseId :
  In s (List.filter (fun s => negb (hasConflictWithCombination s cur))
                    (sectionsOf G courseId)) <->
  s ∈ sectionsOf G courseId /\ forall e, e ∈ cur -> hasTimeConflict s e = false.
Proof.
  rewrite filter_In, negb_true_iff, hasConflictWithCombination_false.
  by rewrite list_elem_of_In.
Qed.

Lemma enumerate_sound pending :
  forall cur c, c ∈ enumerate G pending cur ->
    exists t, c = cur ++ t /\ Extension G pending cur t.
Proof.
  induction pending as [|courseId rest IH]; intros cur c Hc; simpl in Hc.
  - apply list_elem_of_singleton in Hc as ->. exists []. rewrite app_nil_r.
    split; [done|]. repeat split.
    + simpl. constructor.
    + intros s Hs. by apply elem_of_nil in Hs.
    + intros s e Hs. by apply elem_of_nil in Hs.
    + apply PairwiseFree_nil.
    + intros pre id post Heq. by destruct pre.
  - fold (sectionsOf G courseId) in Hc.
    destruct (List.filter _ (sectionsOf G courseId)) as [|s0 l] eqn:Hf.
    + apply IH in Hc as (t & -> & Hsub & Hmem & Hcur & Hpw & Hblk).
      exists t. split; [done|]. repeat split; try done.
      * by apply sublist_cons.
      * intros pre id post Heq Hnot s Hs.
        destruct pre as [|p pre]; simpl in Heq; simplify_eq.
        -- destruct (hasConflictWithCombination s cur) eqn:Hcf.
           ++ apply hasConflictWithCombination_true in Hcf as (e & He & Hce).
              exists e. split; [by left|done].
           ++ assert (In s []) as []. rewrite <- Hf. apply addable_In.
              split; [done|]. by apply hasConflictWithCombination_false.
        -- destruct (Hblk pre id post eq_refl Hnot s Hs) as (e & [He|[He Hp]] & Hce).
           ++ exists e. split; [by left|done].
           ++ exists e. split; [right; split; [done|by right]|done].
    + rewrite <- Hf in Hc. clear Hf s0 l.
      apply list_elem_of_In, in_flat_map in Hc as (s & Hs & Hc).
      apply addable_In in Hs as [Hs Hfree].
      apply list_elem_of_In, IH in Hc as (t & -> & Hsub & Hmem & Hcur & Hpw & Hblk).
      pose proof (G_keys _ _ Hs) as Hid. subst courseId.
      exists (s :: t). split; [by rewrite <- app_assoc|]. repeat split.
      * simpl. by apply sublist_skip.
      * intros x Hx. apply elem_of_cons in Hx as [->|Hx]; [done|by apply Hmem].
      * intros x e Hx He. apply elem_of_cons in Hx as [->|Hx]; [by apply Hfree|].
        apply Hcur; [done|]. apply elem_of_app. by left.
      * apply PairwiseFree_cons. split; [|done].
        intros x Hx. apply Hcur; [done|]. apply elem_of_app. right. by apply list_elem_of_singleton.
      * intros pre id post Heq Hnot x Hx.
        destruct pre as [|p pre]; simpl in Heq; simplify_eq.
        -- exfalso. apply Hnot. simpl. by left.
        -- assert (id ∉ map courseIdOf t) as Hnot'.
           { intros ?. apply Hnot. simpl. by right. }
           destruct (Hblk pre id post eq_refl Hnot' x Hx) as (e & [He|[He Hp]] & Hce).
           ++ apply elem_of_app in He as [He|He].
              ** exists e. split; [by left|done].
              ** apply list_elem_of_singleton in He as ->.
                 exists s. split; [|done]. right. split; by left.
           ++ exists e. split; [|done]. right. split; by right.
Qed.

Lemma enumerate_complete pending :
  NoDup pending ->
  forall cur t, Extension G pending cur t -> cur ++ t ∈ enumerate G pending cur.
Proof.
  induction pending as [|courseId rest IH]; intros Hnd cur t
    (Hsub & Hmem & Hcur & Hpw & Hblk); simpl.
  - apply sublist_nil_r in Hsub. apply map_eq_nil in Hsub as ->.
    rewrite app_nil_r. by apply list_elem_of_singleton.
  - fold (sectionsOf G courseId).
    apply NoDup_cons in Hnd as [Hfresh Hnd].
    apply sublist_cons_r in Hsub as [Hsub|(ids & Heq & Hsub)].
    + (* the course is left out *)
      assert (courseId ∉ map courseIdOf t) as Hout.
      { intros Hin. apply Hfresh. eapply elem_of_sublist; eauto. }
      assert (List.filter (fun s => negb (hasConflictWithCombination s cur))
                          (sectionsOf G courseId) = []) as ->.
      { destruct (List.filter _ _) as [|s l] eqn:Hf; [done|exfalso].
        assert (In s (s :: l)) as Hs by (by left). rewrite <- Hf in Hs.
        apply addable_In in Hs as [Hs Hfree].
        destruct (Hblk [] courseId rest eq_refl Hout s Hs) as (e & [He|[_ He]] & Hce).
        - rewrite (Hfree e He) in Hce. done.
        - by apply elem_of_nil in He. }
      apply IH; [done|]. repeat split; try done.
      intros pre id post -> Hnot s Hs.
      destruct (Hblk (courseId :: pre) id post eq_refl Hnot s Hs)
        as (e & [He|[He Hp]] & Hce).
      * exists e. split; [by left|done].
      * exists e. split; [|done]. right. split; [done|].
        apply elem_of_cons in Hp as [Hp|Hp]; [|done].
        exfalso. apply Hout. rewrite <- Hp. apply list_elem_of_fmap. by exists e.
    + (* the course has a section in [t] *)
      destruct t as [|s t]; [done|]. simpl in Heq. injection Heq as Hid <-.
      assert (s ∈ sectionsOf G courseId) as Hs.
      { rewrite <- Hid. apply Hmem. by left. }
      apply PairwiseFree_cons in Hpw as [Hst Hpw].
      assert (In s (List.filter (fun s => negb (hasConflictWithCombination s cur))
                                (sectionsOf G courseId))) as Hadd.
      { apply addable_In. split; [done|]. intros e He. apply Hcur; [by left|done]. }
      destruct (List.filter _ _) as [|s0 l] eqn:Hf; [by destruct Hadd|]. rewrite <- Hf in *. clear Hf.
      apply list_elem_of_In, in_flat_map. exists s. split; [done|].
      apply list_elem_of_In. rewrite (cons_middle s cur t), app_assoc.
      apply IH; [done|]. repeat split.
      * done.
      * intros x Hx. apply Hmem. by right.
      * intros x e Hx He. apply elem_of_app in He as [He|He].
        -- apply Hcur; [by right|done].
        -- apply list_elem_of_singleton in He as ->. by apply Hst.
      * done.
      * intros pre id post -> Hnot x Hx.
        assert (id <> courseId) as Hne.
        { intros ->. apply Hfresh. apply elem_of_app. right. by left. }
        assert (id ∉ map courseIdOf (s :: t)) as Hnot'.
        { simpl. rewrite Hid. intros Hin. apply elem_of_cons in Hin as [?|?]; done. }
        destruct (Hblk (courseId :: pre) id post eq_refl Hnot' x Hx)
          as (e & [He|[He Hp]] & Hce).
        -- exists e. split; [|done]. left. apply elem_of_app. by left.
        -- apply elem_of_cons in He as [->|He].
           ++ exists s. split; [|done]. left. apply elem_of_app. right.
              by apply list_elem_of_singleton.
           ++ exists e. split; [|done]. right. split; [done|].
              apply elem_of_cons in Hp as [Hp|Hp]; [|done].
              exfalso. apply Hfresh. rewrite <- Hp.
              eapply elem_of_sublist; [|exact Hsub].
              apply list_elem_of_fmap. by exists e.
Qed.
End Enumerate.

(* ===================================================================== *)
(** ** The generator *)
(* ===================================================================== *)

Section Generator.
Variable allSections : list CourseSection.
Variable selectedCourseIds : gset string.
Variable filters : ScheduleFilters.
Variable rnd : nat -> Z.

Local Abbreviation selectedSections :=
  (filter (fun section => courseIdOf section ∈ selectedCourseIds) allSections).
Local Abbreviation G := (groupSectionsByCourse selectedSections).
Local Abbreviation order := (map fst G).
Local Abbreviation r :=
  (generateNonConflictingSchedules allSections selectedCourseIds filters rnd).

Lemma generate_coursesIncluded : coursesIncluded (stats r) = order.
Proof. reflexivity. Qed.

Lemma generate_totalCombinations :
  totalCombinations (stats r) = length (combinations r).
Proof. reflexivity. Qed.

Lemma generate_combinations :
  combinations r =
  fst (JS.sort (compareCombinations rnd)
         (accepted filters (enumerate G order [])) 0%nat).
Proof.
  unfold generateNonConflictingSchedules. cbv zeta. simpl combinations.
  by rewrite (buildCombinations_spec G filters order).
Qed.

Lemma generate_combinations_perm :
  combinations r ≡ₚ accepted filters (enumerate G order []).
Proof. rewrite generate_combinations. apply sort_perm. Qed.

Lemma G_keys courseId s : s ∈ sectionsOf G courseId -> courseIdOf s = courseId.
Proof. intros H. by apply sectionsOf_group_elem in H as [_ ?]. Qed.

Lemma order_NoDup : NoDup order.
Proof. apply groupSectionsByCourse_keys_NoDup. Qed.

Lemma order_elem courseId :
  courseId ∈ order <->
  courseId ∈ selectedCourseIds /\ exists s, s ∈ allSections /\ courseIdOf s = courseId.
Proof.
  rewrite groupSectionsByCourse_keys.
  split.
  - intros (s & Hs & Hid). apply list_elem_of_filter in Hs as [Hsel Hs].
    split; [by rewrite <- Hid|by exists s].
  - intros (Hsel & s & Hs & Hid). exists s. split; [|done].
    apply list_elem_of_filter. by rewrite Hid.
Qed.

Lemma sectionsOf_G courseId s :
  s ∈ sectionsOf G courseId <->
  s ∈ allSections /\ courseIdOf s ∈ selectedCourseIds /\ courseIdOf s = courseId.
Proof.
  rewrite sectionsOf_group_elem, list_elem_of_filter. tauto.
Qed.

(** Every returned combination is one the search enumerates. *)
Lemma returned_enumerated (c : ScheduleCombination) :
  c ∈ combinations r ->
  sections c ∈ enumerate G order [] /\ courseCount c = length (sections c).
Proof.
  rewrite generate_combinations_perm. unfold accepted.
  intros H. apply list_elem_of_fmap in H as (l & -> & Hl).
  apply list_elem_of_In, filter_In in Hl as [Hl _]. by apply list_elem_of_In in Hl.
Qed.

Lemma returned_extension (c : ScheduleCombination) :
  c ∈ combinations r -> Extension G order [] (sections c).
Proof.
  intros H. apply returned_enumerated in H as [H _].
  apply (enumerate_sound G G_keys) in H as (t & Heq & Ht). by rewrite Heq.
Qed.

(** With the filters disabled the returned sections lists are the
    enumerated ones. *)
Lemma returned_disabled c :
  isEnabled filters = false ->
  (c ∈ returnedCombinations r <-> c ∈ enumerate G order []).
Proof.
  intros Hoff. unfold returnedCombinations.
  assert (accepted filters (enumerate G order []) =
          map mkCombination (enumerate G order [])) as Hacc.
  { unfold accepted. f_equal. apply forallb_filter_id, forallb_forall.
    intros x _. by apply meetsFilterCriteria_disabled. }
  rewrite generate_combinations_perm, Hacc.
  change (map sections (map mkCombination ?l)) with (sections <$> (mkCombination <$> l)).
  rewrite <- list_fmap_compose. by rewrite list_fmap_id.
Qed.

Lemma enumerate_nonempty pending cur : enumerate G pending cur <> [].
Proof.
  revert cur. induction pending as [|courseId rest IH]; intros cur; simpl; [done|].
  destruct (List.filter _ _) as [|s l]; [apply IH|].
  simpl. intros H. apply app_eq_nil in H as [H _]. by apply IH in H.
Qed.
End Generator.

(** C3. Every combination returned by [generateNonConflictingSchedules] is
    internally conflict-free: two sections at different positions of a
    returned combination never conflict. *)
Theorem generated_combinations_conflict_free
  (allSections : list CourseSection) (selectedCourseIds : gset string)
  (filters : ScheduleFilters) (rnd : nat -> Z)
  (c : ScheduleCombination) (i j : nat) (s1 s2 : CourseSection) :
  c ∈ combinations
        (generateNonConflictingSchedules allSections selectedCourseIds filters rnd) ->
  i <> j ->
  sections c !! i = Some s1 ->
  sections c !! j = Some s2 ->
  hasTimeConflict s1 s2 = false.
Proof.
  intros Hc Hij H1 H2.
  apply returned_extension in Hc as (_ & _ & _ & Hfree & _).
  by apply (Hfree i j).
Qed.

Lemma generated_combinations_conflict_free_witness :
  mkCombination [Sample.math101; Sample.chem301] ∈
    combinations
      (generateNonConflictingSchedules
         [Sample.math101; Sample.phys201; Sample.chem301]
         {[ "MATH101"; "PHYS201"; "CHEM301" ]}%string
         defaultFilters Sample.noRandom)
  /\ hasTimeConflict Sample.math101 Sample.chem301 = false.
Proof.
  assert (mkCombination [Sample.math101; Sample.chem301] ∈
            combinations
              (generateNonConflictingSchedules
                 [Sample.math101; Sample.phys201; Sample.chem301]
                 {[ "MATH101"; "PHYS201"; "CHEM301" ]}%string
                 defaultFilters Sample.noRandom)) as Hin.
  { vm_compute. constructor. }
  split; [exact Hin|].
  apply (generated_combinations_conflict_free _ _ _ _ _ 0 1 _ _ Hin);
    [lia|reflexivity|reflexivity].
Defined.

(** C4. No combination returned by [generateNonConflictingSchedules] holds
    two sections of the same course identity (the concatenation of subject
    and course code). *)
Theorem generated_combinations_one_per_course
  (allSections : list CourseSection) (selectedCourseIds : gset string)
  (filters : ScheduleFilters) (rnd : nat -> Z)
  (c : ScheduleCombination) (i j : nat) (s1 s2 : CourseSection) :
  c ∈ combinations
        (generateNonConflictingSchedules allSections selectedCourseIds filters rnd) ->
  i <> j ->
  sections c !! i = Some s1 ->
  sections c !! j = Some s2 ->
  courseIdOf s1 <> courseIdOf s2.
Proof.
  intros Hc Hij H1 H2 Heq.
  apply returned_extension in Hc as (Hsub & _).
  apply sublist_NoDup in Hsub; [|apply order_NoDup].
  apply Hij. eapply NoDup_lookup; [exact Hsub| |].
  - rewrite list_lookup_fmap, H1. reflexivity.
  - rewrite list_lookup_fmap, H2. simpl. by rewrite Heq.
Qed.

Lemma generated_combinations_one_per_course_witness :
  mkCombination [Sample.math101; Sample.chem301] ∈
    combinations
      (generateNonConflictingSchedules
         [Sample.math101; Sample.phys201; Sample.chem301]
         {[ "MATH101"; "PHYS201"; "CHEM301" ]}%string
         defaultFilters Sample.noRandom)
  /\ courseIdOf Sample.math101 <> courseIdOf Sample.chem301.
Proof.
  assert (mkCombination [Sample.math101; Sample.chem301] ∈
            combinations
              (generateNonConflictingSchedules
                 [Sample.math101; Sample.phys201; Sample.chem301]
                 {[ "MATH101"; "PHYS201"; "CHEM301" ]}%string
                 defaultFilters Sample.noRandom)) as Hin.
  { vm_compute. constructor. }
  split; [exact Hin|].
  apply (generated_combinations_one_per_course _ _ _ _ _ 0 1 _ _ Hin);
    [lia|reflexivity|reflexivity].
Defined.

Lemma compareCombinations_pos rnd a b k :
  0 < default 0 (fst (compareCombinations rnd a b k)) -> MayPrecede b a.
Proof.
  unfold compareCombinations, MayPrecede.
  destruct (Nat.eqb_spec (courseCount b) (courseCount a)) as [->|Hne]; simpl; lia.
Qed.

Lemma compareCombinations_nonpos rnd a b k :
  ~ 0 < default 0 (fst (compareCombinations rnd a b k)) -> MayPrecede a b.
Proof.
  unfold compareCombinations, MayPrecede.
  destruct (Nat.eqb_spec (courseCount b) (courseCount a)) as [->|Hne]; simpl; lia.
Qed.

Lemma MayPrecede_trans a b c : MayPrecede a b -> MayPrecede b c -> MayPrecede a c.
Proof. unfold MayPrecede. lia. Qed.

(** C7. The returned list is ordered by [courseCount] descending: of two
    returned combinations the one with the strictly greater [courseCount]
    stands before the other, whatever [Math.random] draws. *)
Theorem generated_combinations_sorted
  (allSections : list CourseSection) (selectedCourseIds : gset string)
  (filters : ScheduleFilters) (rnd : nat -> Z)
  (i j : nat) (a b : ScheduleCombination) :
  combinations
    (generateNonConflictingSchedules allSections selectedCourseIds filters rnd)
    !! i = Some a ->
  combinations
    (generateNonConflictingSchedules allSections selectedCourseIds filters rnd)
    !! j = Some b ->
  (courseCount b < courseCount a)%nat ->
  (i < j)%nat.
Proof.
  intros Ha Hb Hgt. rewrite generate_combinations in Ha, Hb.
  destruct (lt_eq_lt_dec i j) as [[Hlt|Heq]|Hlt]; [done| |].
  - subst. rewrite Ha in Hb. injection Hb as ->. lia.
  - exfalso.
    pose proof (sort_ordered (compareCombinations rnd) MayPrecede
                  MayPrecede_trans (compareCombinations_pos rnd)
                  (compareCombinations_nonpos rnd) _ _ j i b a Hlt Hb Ha) as H.
    unfold MayPrecede in H. lia.
Qed.

(** The first section of MATH 101 blocks PHYS 201, the second does not: the
    search finds the one-course combination first, the sort puts the
    two-course combination ahead of it. *)
Lemma generated_combinations_sorted_witness :
  let r := generateNonConflictingSchedules
             [Sample.math101; Sample.math101b; Sample.phys201]
             {[ "MATH101"; "PHYS201" ]}%string
             defaultFilters Sample.noRandom in
  combinations r !! 0%nat = Some (mkCombination [Sample.math101b; Sample.phys201])
  /\ combinations r !! 1%nat = Some (mkCombination [Sample.math101])
  /\ (0 < 1)%nat.
Proof.
  intros r.
  assert (combinations r !! 0%nat
          = Some (mkCombination [Sample.math101b; Sample.phys201])) as H0.
  { vm_compute. reflexivity. }
  assert (combinations r !! 1%nat = Some (mkCombination [Sample.math101])) as H1.
  { vm_compute. reflexivity. }
  split; [exact H0|]. split; [exact H1|].
  apply (generated_combinations_sorted _ _ _ _ 0 1 _ _ H0 H1).
  vm_compute. lia.
Defined.

(** C10. With the filters disabled the generator returns at least one
    combination ([stats.totalCombinations >= 1]); when no section has a
    selected course identity it returns exactly one combination, with no
    section and [courseCount] 0. *)
Theorem generate_disabled_nonempty
  (allSections : list CourseSection) (selectedCourseIds : gset string)
  (filters : ScheduleFilters) (rnd : nat -> Z) :
  isEnabled filters = false ->
  let r := generateNonConflictingSchedules allSections selectedCourseIds
             filters rnd in
  (1 <= totalCombinations (stats r))%nat
  /\ totalCombinations (stats r) = length (combinations r)
  /\ combinations r <> []
  /\ ((forall s, s ∈ allSections -> courseIdOf s ∉ selectedCourseIds) ->
      combinations r = [ {| sections := []; courseCount := 0 |} ]).
Proof.
  intros Hoff r.
  set (G := groupSectionsByCourse
              (filter (fun s => courseIdOf s ∈ selectedCourseIds) allSections)).
  assert (exists c, c ∈ returnedCombinations r) as (c & Hc).
  { destruct (enumerate G (map fst G) []) as [|c l] eqn:He.
    - by apply enumerate_nonempty in He.
    - exists c. apply returned_disabled; [done|]. fold G. rewrite He. by left. }
  assert (combinations r <> []) as Hne.
  { intros Hnil. unfold returnedCombinations in Hc. rewrite Hnil in Hc.
    by apply elem_of_nil in Hc. }
  repeat split; [|done|].
  - change (totalCombinations (stats r)) with (length (combinations r)).
    destruct (combinations r); [done|simpl; lia].
  - intros Hnone.
    assert (filter (fun s => courseIdOf s ∈ selectedCourseIds) allSections = [])
      as Hsel.
    { destruct (filter _ allSections) as [|s l] eqn:Hf; [done|exfalso].
      assert (s ∈ filter (fun s => courseIdOf s ∈ selectedCourseIds) allSections)
        as Hs by (rewrite Hf; by left).
      apply list_elem_of_filter in Hs as [Hin Hs]. by apply (Hnone s). }
    unfold r, generateNonConflictingSchedules. rewrite Hsel. cbv zeta.
    simpl. rewrite (meetsFilterCriteria_disabled _ _ Hoff). reflexivity.
Qed.

Lemma generate_disabled_nonempty_witness :
  (1 <= totalCombinations
          (stats (generateNonConflictingSchedules [Sample.math101] ∅
                    defaultFilters Sample.noRandom)))%nat
  /\ combinations (generateNonConflictingSchedules [Sample.math101] ∅
                     defaultFilters Sample.noRandom)
     = [ {| sections := []; courseCount := 0 |} ].
Proof.
  destruct (generate_disabled_nonempty [Sample.math101] ∅ defaultFilters
              Sample.noRandom eq_refl) as (H1 & _ & _ & H4).
  split; [exact H1|]. apply H4. intros s _. apply not_elem_of_empty.
Defined.

(** Counterexample to C2 as stated.  With the filters disabled one selected
    section on its own is returned as the only combination; the empty
    choice, conflict-free as well, is not. *)
Lemma generate_omits_empty_choice :
  ~ ReturnsAllConflictFree [Sample.math101] {[ "MATH101"%string ]}
      defaultFilters Sample.noRandom.
Proof.
  intros H. destruct (H []) as [_ Hall].
  assert ([] ∈ returnedCombinations
            (generateNonConflictingSchedules [Sample.math101]
               {[ "MATH101"%string ]} defaultFilters Sample.noRandom)) as Hin.
  { apply Hall. split; [|split].
    - intros s Hs. by apply elem_of_nil in Hs.
    - constructor.
    - apply PairwiseFree_nil. }
  vm_compute in Hin. inversion Hin as [|? ? ? Hnil]. inversion Hnil.
Qed.

(** C2 (amended). With the filters disabled, the returned combinations are
    exactly the conflict-free choices of at most one section per selected
    course identity, listed in the order of [stats.coursesIncluded], in
    which a course identity is left out only if every section of it
    conflicts with a section the combination holds for an earlier course
    identity.  [stats.coursesIncluded] lists, without repetition, the
    selected course identities that have a section. *)
Theorem generate_disabled_exact
  (allSections : list CourseSection) (selectedCourseIds : gset string)
  (filters : ScheduleFilters) (rnd : nat -> Z) :
  isEnabled filters = false ->
  let r := generateNonConflictingSchedules allSections selectedCourseIds
             filters rnd in
  let order := coursesIncluded (stats r) in
  NoDup order
  /\ (forall courseId,
        courseId ∈ order <->
        courseId ∈ selectedCourseIds
        /\ exists s, s ∈ allSections /\ courseIdOf s = courseId)
  /\ (forall c,
        c ∈ returnedCombinations r <->
        ConflictFreeChoice allSections selectedCourseIds c
        /\ sublist (map courseIdOf c) order
        /\ OmittedOnlyIfBlocked allSections order c).
Proof.
  intros Hoff r order.
  set (G := groupSectionsByCourse
              (filter (fun s => courseIdOf s ∈ selectedCourseIds) allSections)).
  assert (order = map fst G) as Horder by reflexivity.
  pose proof (order_NoDup allSections selectedCourseIds) as Hnd.
  pose proof (order_elem allSections selectedCourseIds) as Helem.
  pose proof (sectionsOf_G allSections selectedCourseIds) as HG.
  fold G in Hnd, Helem, HG. rewrite <- Horder in Hnd, Helem.
  split; [done|]. split; [done|]. intros c.
  unfold r. rewrite (returned_disabled _ _ _ _ _ Hoff). fold G. rewrite <- Horder.
  split.
  - intros Hc.
    apply (enumerate_sound G (G_keys allSections selectedCourseIds)) in Hc
      as (t & Heq & Hsub & Hmem & _ & Hfree & Hblk).
    simpl in Heq. subst t. split; [split; [|split]|split].
    + intros s Hs. apply Hmem, HG in Hs. tauto.
    + eapply sublist_NoDup; eauto.
    + done.
    + done.
    + intros pre courseId post Heq Hout s Hs Hid.
      destruct (Hblk pre courseId post Heq Hout s) as (e & [He|[He Hpre]] & Hce).
      * apply HG. split; [done|]. split; [|done]. rewrite Hid.
        apply Helem. rewrite Heq. apply elem_of_app. right. by left.
      * by apply elem_of_nil in He.
      * by exists e.
  - intros ((Hmem & _ & Hfree) & Hsub & Hblk).
    change c with ([] ++ c).
    apply (enumerate_complete G); [done|]. split; [done|]. split; [|split; [|split; [done|]]].
    + intros s Hs. apply HG. destruct (Hmem s Hs). done.
    + intros s e _ He. by apply elem_of_nil in He.
    + intros pre courseId post Heq Hout s Hs.
      apply HG in Hs as (Hs & _ & Hid).
      destruct (Hblk pre courseId post Heq Hout s Hs Hid) as (e & He & Hpre & Hce).
      exists e. split; [right; by split|done].
Qed.

Lemma generate_disabled_exact_witness :
  [Sample.math101; Sample.chem301] ∈
    returnedCombinations
      (generateNonConflictingSchedules
         [Sample.math101; Sample.phys201; Sample.chem301]
         {[ "MATH101"; "PHYS201"; "CHEM301" ]}%string
         defaultFilters Sample.noRandom)
  <-> ConflictFreeChoice [Sample.math101; Sample.phys201; Sample.chem301]
        {[ "MATH101"; "PHYS201"; "CHEM301" ]}%string
        [Sample.math101; Sample.chem301]
      /\ sublist (map courseIdOf [Sample.math101; Sample.chem301])
           ["MATH101"; "PHYS201"; "CHEM301"]%string
      /\ OmittedOnlyIfBlocked [Sample.math101; Sample.phys201; Sample.chem301]
           ["MATH101"; "PHYS201"; "CHEM301"]%string
           [Sample.math101; Sample.chem301].
Proof.
  destruct (generate_disabled_exact
              [Sample.math101; Sample.phys201; Sample.chem301]
              {[ "MATH101"; "PHYS201"; "CHEM301" ]}%string
              defaultFilters Sample.noRandom eq_refl) as (_ & _ & H).
  exact (H [Sample.math101; Sample.chem301]).
Defined.

(* ===================================================================== *)
(** ** Parser: what a valid result holds *)
(* ===================================================================== *)

Lemma isDigit_cases c :
  JS.isDigit c = true ->
  c ∈ ["0"; "1"; "2"; "3"; "4"; "5"; "6"; "7"; "8"; "9"]%char.
Proof.
  destruct c as [[] [] [] [] [] [] [] []]; intros H;
    try discriminate H; compute_done.
Qed.

Lemma digitValue_range c : JS.isDigit c = true -> 0 <= JS.digitValue c <= 9.
Proof.
  intros H. apply isDigit_cases in H.
  repeat (apply elem_of_cons in H as [->|H]; [by vm_compute|]).
  by apply elem_of_nil in H.
Qed.

Lemma isDigit_not_sep c :
  JS.isDigit c = true ->
  Ascii.eqb c ":" = false /\ Ascii.eqb c "-" = false
  /\ JS.isWhiteSpace c = false.
Proof.
  intros H. apply isDigit_cases in H.
  repeat (apply elem_of_cons in H as [->|H]; [by vm_compute|]).
  by apply elem_of_nil in H.
Qed.

Lemma split_skip sep c s :
  Ascii.eqb c sep = false ->
  JS.split sep (String c s) =
  match JS.split sep s with
  | [] => [String c EmptyString]
  | p :: ps => String c p :: ps
  end.
Proof. intros H. simpl. by rewrite H. Qed.

Lemma split_at sep s :
  JS.split sep (String sep s) = EmptyString :: JS.split sep s.
Proof. simpl. by rewrite Ascii.eqb_refl. Qed.

(** [Number] of two decimal digits. *)
Lemma Number_two_digits a b :
  JS.isDigit a = true -> JS.isDigit b = true ->
  JS.Number (String a (String b EmptyString))
  = Some (10 * JS.digitValue a + JS.digitValue b).
Proof.
  intros Ha Hb. apply isDigit_cases in Ha, Hb.
  repeat (apply elem_of_cons in Ha as [->|Ha];
          [repeat (apply elem_of_cons in Hb as [->|Hb]; [by vm_compute|]);
           by apply elem_of_nil in Hb|]).
  by apply elem_of_nil in Ha.
Qed.

(** The minutes of a time written [ab:cd] in digits. *)
Lemma hmToMinutes_digits a b c d :
  JS.isDigit a = true -> JS.isDigit b = true ->
  JS.isDigit c = true -> JS.isDigit d = true ->
  hmToMinutes (String a (String b (String ":" (String c (String d EmptyString)))))
  = Some ((10 * JS.digitValue a + JS.digitValue b) * 60
          + (10 * JS.digitValue c + JS.digitValue d)).
Proof.
  intros Ha Hb Hc Hd. unfold hmToMinutes.
  destruct (isDigit_not_sep a Ha) as (Ha1 & _), (isDigit_not_sep b Hb) as (Hb1 & _),
           (isDigit_not_sep c Hc) as (Hc1 & _), (isDigit_not_sep d Hd) as (Hd1 & _).
  rewrite (split_skip _ a), (split_skip _ b), split_at, (split_skip _ c),
    (split_skip _ d) by done.
  cbn [JS.split map JS.at_ lookup list_lookup default].
  by rewrite !Number_two_digits.
Qed.

Lemma charIn_isDigit lo hi c :
  (48 <= lo)%nat -> (hi <= 57)%nat -> charIn lo hi c = true -> JS.isDigit c = true.
Proof.
  unfold charIn, JS.isDigit. intros Hlo Hhi H.
  apply andb_true_iff in H as [H1 H2]. apply Nat.leb_le in H1, H2.
  apply andb_true_iff. split; apply Nat.leb_le; lia.
Qed.

Lemma charIn_digitValue lo hi c :
  charIn lo hi c = true ->
  Z.of_nat lo - 48 <= JS.digitValue c <= Z.of_nat hi - 48.
Proof.
  unfold charIn, JS.digitValue. intros H.
  apply andb_true_iff in H as [H1 H2]. apply Nat.leb_le in H1, H2. lia.
Qed.

Lemma isHourPair_spec a b :
  isHourPair a b = true ->
  JS.isDigit a = true /\ JS.isDigit b = true
  /\ 0 <= 10 * JS.digitValue a + JS.digitValue b <= 23.
Proof.
  unfold isHourPair. intros H. apply orb_true_iff in H as [H|H];
    apply andb_true_iff in H as [H1 H2].
  - pose proof (charIn_digitValue _ _ _ H1). pose proof (digitValue_range _ H2).
    split; [by eapply (charIn_isDigit 48 49); [lia|lia|]|]. split; [done|]. lia.
  - apply Ascii.eqb_eq in H1 as ->. pose proof (charIn_digitValue _ _ _ H2).
    split; [done|]. split; [by eapply (charIn_isDigit 48 51); [lia|lia|]|].
    change (JS.digitValue "2") with 2. lia.
Qed.

Lemma isMinutePair_spec a b :
  isMinutePair a b = true ->
  JS.isDigit a = true /\ JS.isDigit b = true
  /\ 0 <= 10 * JS.digitValue a + JS.digitValue b <= 59.
Proof.
  unfold isMinutePair. intros H. apply andb_true_iff in H as [H1 H2].
  pose proof (charIn_digitValue _ _ _ H1). pose proof (digitValue_range _ H2).
  split; [by eapply (charIn_isDigit 48 53); [lia|lia|]|]. split; [done|]. lia.
Qed.

(** A time field that passes [isValidTimeFormat] splits into two times of
    day, the second one later than the first. *)
Lemma isValidTimeFormat_ValidTime t :
  isValidTimeFormat t = true -> ValidTime (parseTimeString t).
Proof.
  unfold isValidTimeFormat. destruct (timePattern t) eqn:Hp; [|discriminate].
  simpl. unfold timePattern in Hp.
  destruct t as [|h1 [|h2 [|c1 [|m1 [|m2 [|d [|h3 [|h4 [|c2 [|m3 [|m4 [|]]]]]]]]]]]];
    try discriminate Hp.
  repeat (apply andb_true_iff in Hp as [Hp ?]).
  repeat match goal with
         | H : Ascii.eqb _ _ = true |- _ => apply Ascii.eqb_eq in H; subst
         end.
  destruct (isHourPair_spec _ _ Hp) as (D1 & D2 & B1).
  match goal with H : isMinutePair m1 m2 = true |- _ =>
    destruct (isMinutePair_spec _ _ H) as (D3 & D4 & B2) end.
  match goal with H : isHourPair h3 h4 = true |- _ =>
    destruct (isHourPair_spec _ _ H) as (D5 & D6 & B3) end.
  match goal with H : isMinutePair m3 m4 = true |- _ =>
    destruct (isMinutePair_spec _ _ H) as (D7 & D8 & B4) end.
  assert (JS.split "-"
            (String h1 (String h2 (String ":" (String m1 (String m2 (String "-"
              (String h3 (String h4 (String ":" (String m3 (String m4
                 EmptyString)))))))))))
          = [String h1 (String h2 (String ":" (String m1 (String m2 EmptyString))));
             String h3 (String h4 (String ":" (String m3 (String m4 EmptyString))))])
    as Hsplit.
  { destruct (isDigit_not_sep _ D1) as (_ & ? & _), (isDigit_not_sep _ D2) as (_ & ? & _),
      (isDigit_not_sep _ D3) as (_ & ? & _), (isDigit_not_sep _ D4) as (_ & ? & _),
      (isDigit_not_sep _ D5) as (_ & ? & _), (isDigit_not_sep _ D6) as (_ & ? & _),
      (isDigit_not_sep _ D7) as (_ & ? & _), (isDigit_not_sep _ D8) as (_ & ? & _).
    rewrite (split_skip _ h1), (split_skip _ h2), (split_skip _ ":"),
      (split_skip _ m1), (split_skip _ m2), split_at, (split_skip _ h3),
      (split_skip _ h4), (split_skip _ ":"), (split_skip _ m3),
      (split_skip _ m4) by done.
    reflexivity. }
  unfold parseTimeString. rewrite Hsplit.
  cbn [strAt lookup list_lookup default startTime endTime].
  unfold id, ValidTime. cbn [startTime endTime].
  rewrite !hmToMinutes_digits by done. simpl JS.lt.
  intros Hlt. apply Z.ltb_lt in Hlt.
  eexists _, _. split; [reflexivity|]. split; [reflexivity|]. lia.
Qed.

(** One row either adds one diagnostic of its line and keeps no section, or
    keeps one well-formed section with a CRN not seen before and adds no
    diagnostic. *)
Lemma parseRow_shape i line ps :
  (exists what,
     ps_errors (parseRow i line ps) = ps_errors ps ++ [lineError (i + 1) what]
     /\ parsedCourses (parseRow i line ps) = parsedCourses ps
     /\ crnSet ps ⊆ crnSet (parseRow i line ps))
  \/ (exists s,
        ps_errors (parseRow i line ps) = ps_errors ps
        /\ parsedCourses (parseRow i line ps) = parsedCourses ps ++ [s]
        /\ crnSet (parseRow i line ps) = crnSet ps ∪ {[ crn s ]}
        /\ (crn s ∉ crnSet ps)
        /\ ValidSection s).
Proof.
  unfold parseRow. cbv zeta.
  destruct (negb (length (JS.split "," line) =? 10)%nat);
    [left; eexists; simpl; split; [reflexivity|split; [done|set_solver]]|].
  destruct (isEmpty (strAt (JS.split "," line) 0)) eqn:E0;
    [left; eexists; simpl; split; [reflexivity|split; [done|set_solver]]|].
  destruct (isEmpty (strAt (JS.split "," line) 1)) eqn:E1;
    [left; eexists; simpl; split; [reflexivity|split; [done|set_solver]]|].
  destruct (isEmpty (strAt (JS.split "," line) 2)) eqn:E2;
    [left; eexists; simpl; split; [reflexivity|split; [done|set_solver]]|].
  destruct (isEmpty (strAt (JS.split "," line) 9)) eqn:E9;
    [left; eexists; simpl; split; [reflexivity|split; [done|set_solver]]|].
  cbn [orb]. case_bool_decide as Hdup;
    [left; eexists; simpl; split; [reflexivity|split; [done|set_solver]]|].
  destruct (allDigits 5 (strAt (JS.split "," line) 9)) eqn:Ecrn; cbn [negb];
    [|left; eexists; simpl; split; [reflexivity|split; [done|set_solver]]].
  destruct (allDigits 3 (strAt (JS.split "," line) 2)) eqn:Ecode; cbn [negb];
    [|left; eexists; simpl; split; [reflexivity|split; [done|set_solver]]].
  destruct (isValidDay (strAt (JS.split "," line) 3)) eqn:Ed1; cbn [negb];
    [|left; eexists; simpl; split; [reflexivity|split; [done|set_solver]]].
  destruct (isValidDay (strAt (JS.split "," line) 6)) eqn:Ed2; cbn [negb];
    [|left; eexists; simpl; split; [reflexivity|split; [done|set_solver]]].
  destruct (isValidTimeFormat (strAt (JS.split "," line) 4)) eqn:Et1; cbn [negb];
    [|left; eexists; simpl; split; [reflexivity|split; [done|set_solver]]].
  destruct (isValidTimeFormat (strAt (JS.split "," line) 7)) eqn:Et2; cbn [negb];
    [|left; eexists; simpl; split; [reflexivity|split; [done|set_solver]]].
  destruct (parseMeetingType (strAt (JS.split "," line) 5)) as [type1|];
    [|left; eexists; simpl; split; [reflexivity|split; [done|set_solver]]].
  destruct (parseMeetingType (strAt (JS.split "," line) 8)) as [type2|];
    [|left; eexists; simpl; split; [reflexivity|split; [done|set_solver]]].
  right. eexists. simpl. split; [reflexivity|]. split; [reflexivity|].
  simpl. split; [reflexivity|]. split; [done|].
  repeat split; simpl; try done.
  - by destruct (strAt (JS.split "," line) 0).
  - by destruct (strAt (JS.split "," line) 1).
  - by apply isValidTimeFormat_ValidTime.
  - by apply isValidTimeFormat_ValidTime.
Qed.

Lemma parseRow_inv i line ps : ParseInv ps -> ParseInv (parseRow i line ps).
Proof.
  intros (Hv & Hnd & Hset).
  destruct (parseRow_shape i line ps)
    as [(what & _ & Hp & Hc)|(s & _ & Hp & Hc & Hnew & Hs)]; unfold ParseInv;
    rewrite Hp.
  - split; [done|]. split; [done|]. intros s Hs. apply Hc. by apply Hset.
  - split; [|split].
    + apply Forall_app. split; [done|]. by apply Forall_singleton.
    + rewrite map_app. apply NoDup_app. split; [done|]. split; [|apply NoDup_singleton].
      intros c Hc1 Hc2. apply list_elem_of_singleton in Hc2 as ->.
      apply list_elem_of_fmap in Hc1 as (s' & Heq & Hs'). apply Hnew.
      rewrite Heq. by apply Hset.
    + intros s' Hs'. rewrite Hc. apply elem_of_union.
      apply elem_of_app in Hs' as [Hs'|Hs'].
      * left. by apply Hset.
      * apply list_elem_of_singleton in Hs' as ->. right. by apply elem_of_singleton.
Qed.

Lemma parseRows_inv rows : forall i ps, ParseInv ps -> ParseInv (parseRows i rows ps).
Proof.
  induction rows as [|line rows IH]; intros i ps H; simpl; [done|].
  by apply IH, parseRow_inv.
Qed.

(** Every row leaves either a diagnostic or a section. *)
Lemma parseRows_count rows : forall i ps,
  (length (ps_errors (parseRows i rows ps))
   + length (parsedCourses (parseRows i rows ps))
   = length (ps_errors ps) + length (parsedCourses ps) + length rows)%nat.
Proof.
  induction rows as [|line rows IH]; intros i ps; simpl; [lia|].
  rewrite IH.
  destruct (parseRow_shape i line ps)
    as [(what & He & Hp & _)|(s & He & Hp & _)]; rewrite He, Hp, length_app;
    simpl; lia.
Qed.

(** The diagnostics of the rows from index [i] on carry the numbers of
    their lines, in increasing order. *)
Lemma IncreasingFrom_weaken lo lo' ns :
  (lo' <= lo)%nat -> IncreasingFrom lo ns -> IncreasingFrom lo' ns.
Proof. destruct ns as [|n ns]; simpl; [done|]. intros ? [? ?]. split; [lia|done]. Qed.

Lemma parseRows_errors rows : forall i ps,
  exists es ns,
    ps_errors (parseRows i rows ps) = ps_errors ps ++ es
    /\ Forall2 ErrorOfLine es ns
    /\ IncreasingWithin (i + 1) (i + length rows) ns.
Proof.
  induction rows as [|line rows IH]; intros i ps; simpl.
  - exists [], []. rewrite app_nil_r. repeat split; constructor.
  - destruct (IH (S i) (parseRow i line ps)) as (es & ns & He & Hf & Hs & Hb).
    assert (Forall (fun n => (n <= i + S (length rows))%nat) ns) as Hb'.
    { eapply Forall_impl; [exact Hb|]. simpl. intros n Hn. lia. }
    destruct (parseRow_shape i line ps)
      as [(what & Hr & _)|(s & Hr & _)]; rewrite Hr in He.
    + exists (lineError (i + 1) what :: es), ((i + 1)%nat :: ns).
      split; [by rewrite He, <- app_assoc|]. split; [|split].
      * constructor; [by exists what|done].
      * simpl. split; [lia|]. eapply IncreasingFrom_weaken; [|exact Hs]. lia.
      * constructor; [lia|done].
    + exists es, ns. split; [done|]. split; [done|]. split; [|done].
      eapply IncreasingFrom_weaken; [|exact Hs]. lia.
Qed.

Lemma ParseInv_init :
  ParseInv {| ps_errors := []; parsedCourses := []; crnSet := ∅ |}.
Proof.
  split; [constructor|]. split; [constructor|].
  intros s Hs. by apply elem_of_nil in Hs.
Qed.

(** The parts of a result with data: the header was found and the row loop
    left no diagnostic. *)
Lemma parseCourseCsv_data_inv csvContent l :
  data (parseCourseCsv csvContent) = Some l ->
  let ps := parseRows 1 (drop 1 (splitLines csvContent))
              {| ps_errors := []; parsedCourses := []; crnSet := ∅ |} in
  splitLines csvContent !! 0%nat = Some expectedHeader
  /\ ps_errors ps = [] /\ parsedCourses ps = l.
Proof.
  unfold parseCourseCsv. cbv zeta. case_bool_decide as Hh; [discriminate|].
  simpl. destruct (ps_errors _) as [|e es] eqn:He; simpl; [|discriminate].
  intros [= <-]. split; [|done].
  destruct (decide (splitLines csvContent !! 0%nat = Some expectedHeader)); [done|].
  by exfalso.
Qed.

(** X1. Every section of a valid parse result is well-formed: name and
    subject are not empty, the course code is three digits and the CRN
    five, both days are day names, and both times are times of day whose
    end, in minutes, is after the start. *)
Theorem parseCourseCsv_sections_valid (csvContent : string)
  (l : list CourseSection) :
  data (parseCourseCsv csvContent) = Some l -> Forall ValidSection l.
Proof.
  intros H. apply parseCourseCsv_data_inv in H as (_ & _ & <-).
  apply parseRows_inv, ParseInv_init.
Qed.

Lemma parseCourseCsv_sections_valid_witness :
  data (parseCourseCsv Sample.goodCsv) = Some [Sample.cprg305]
  /\ Forall ValidSection [Sample.cprg305].
Proof.
  assert (data (parseCourseCsv Sample.goodCsv) = Some [Sample.cprg305]) as H
    by (by vm_compute).
  split; [exact H|]. exact (parseCourseCsv_sections_valid _ _ H).
Defined.



(** X3. A valid parse result holds one section for every non-empty line
    after the header: no row is dropped without a diagnostic. *)
Theorem parseCourseCsv_keeps_every_row (csvContent : string)
  (l : list CourseSection) :
  data (parseCourseCsv csvContent) = Some l ->
  length (splitLines csvContent) = S (length l).
Proof.
  intros H. apply parseCourseCsv_data_inv in H as (Hh & He & <-).
  pose proof (parseRows_count (drop 1 (splitLines csvContent)) 1
                {| ps_errors := []; parsedCourses := []; crnSet := ∅ |}) as Hc.
  rewrite He in Hc. simpl in Hc. rewrite length_drop in Hc.
  apply lookup_lt_Some in Hh. lia.
Qed.

Lemma parseCourseCsv_keeps_every_row_witness :
  data (parseCourseCsv Sample.goodCsv) = Some [Sample.cprg305]
  /\ length (splitLines Sample.goodCsv) = 2%nat.
Proof.
  assert (data (parseCourseCsv Sample.goodCsv) = Some [Sample.cprg305]) as H
    by (by vm_compute).
  split; [exact H|]. exact (parseCourseCsv_keeps_every_row _ _ H).
Defined.

(** X4. When the header is the expected one, every diagnostic is of the
    form [Line n: ...]; the numbers [n] count the non-empty lines from 1
    (the header is line 1), go strictly up along the error list and do not
    exceed the number of non-empty lines, so a row gives at most one
    diagnostic. *)
Theorem parseCourseCsv_error_lines (csvContent : string) :
  splitLines csvContent !! 0%nat = Some expectedHeader ->
  exists ns : list nat,
    Forall2 ErrorOfLine (errors (parseCourseCsv csvContent)) ns
    /\ IncreasingWithin 2 (length (splitLines csvContent)) ns.
Proof.
  intros Hh. unfold parseCourseCsv. cbv zeta.
  rewrite bool_decide_false by (intros Hne; by apply Hne). simpl.
  destruct (parseRows_errors (drop 1 (splitLines csvContent)) 1
              {| ps_errors := []; parsedCourses := []; crnSet := ∅ |})
    as (es & ns & He & Hf & Hinc & Hb).
  simpl in He. rewrite He. exists ns. split; [done|]. split; [done|].
  rewrite length_drop in Hb. apply lookup_lt_Some in Hh.
  eapply Forall_impl; [exact Hb|]. simpl. intros n Hn. lia.
Qed.

Lemma parseCourseCsv_error_lines_witness :
  errors (parseCourseCsv Sample2.mixedCsv)
  = ["Line 3: Invalid first meeting day Funday";
     "Line 4: Invalid number of fields"]%string
  /\ exists ns : list nat,
       Forall2 ErrorOfLine (errors (parseCourseCsv Sample2.mixedCsv)) ns
       /\ IncreasingWithin 2 (length (splitLines Sample2.mixedCsv)) ns.
Proof.
  split; [by vm_compute|].
  apply parseCourseCsv_error_lines. by vm_compute.
Defined.

(* ===================================================================== *)
(** ** [extractUniqueCourses], [getCourseSections] and the course identity *)
(* ===================================================================== *)

Lemma Ascii_compare_trans a b c :
  Ascii.compare a b <> Gt -> Ascii.compare b c <> Gt ->
  Ascii.compare a c <> Gt
  /\ (Ascii.compare a c = Eq -> Ascii.compare a b = Eq /\ Ascii.compare b c = Eq).
Proof.
  unfold Ascii.compare.
  destruct (N.compare_spec (N_of_ascii a) (N_of_ascii b)),
           (N.compare_spec (N_of_ascii b) (N_of_ascii c)),
           (N.compare_spec (N_of_ascii a) (N_of_ascii c));
    intros ? ?; split; try done; try lia; intros; try done; lia.
Qed.

Lemma StringLe_trans a b c : StringLe a b -> StringLe b c -> StringLe a c.
Proof.
  unfold StringLe, String.leb. revert b c.
  induction a as [|x a IH]; intros [|y b] [|z c]; simpl; try done.
  intros Hab Hbc.
  destruct (Ascii.compare x y) eqn:Exy; try done;
    destruct (Ascii.compare y z) eqn:Eyz; try done;
    destruct (Ascii_compare_trans x y z) as [Hxz Heq];
    rewrite ?Exy, ?Eyz; try done;
    destruct (Ascii.compare x z) eqn:Exz; try done;
    try (destruct (Heq eq_refl); congruence).
  by eapply IH.
Qed.

Lemma defaultCompare_pos a b st :
  0 < default 0 (fst (defaultCompare a b st)) -> StringLe b a.
Proof.
  unfold defaultCompare, StringLe, String.leb. simpl.
  rewrite (String.compare_antisym b a).
  destruct (String.compare a b); simpl; [lia|lia|done].
Qed.

Lemma defaultCompare_nonpos a b st :
  ~ 0 < default 0 (fst (defaultCompare a b st)) -> StringLe a b.
Proof.
  unfold defaultCompare, StringLe, String.leb. simpl.
  destruct (String.compare a b); simpl; [done|done|lia].
Qed.

Lemma sortStrings_perm l : sortStrings l ≡ₚ l.
Proof. apply sort_perm. Qed.

(** Sorting distinct strings gives a strictly ascending list. *)
Lemma sortStrings_ascending l : NoDup l -> StrictlyAscending (sortStrings l).
Proof.
  intros Hnd i j a b Hij Ha Hb.
  assert (StringLe a b) as Hle.
  { eapply (sort_ordered defaultCompare StringLe StringLe_trans
              defaultCompare_pos defaultCompare_nonpos l tt i j); eauto. }
  assert (a <> b) as Hne.
  { intros ->. rewrite <- sortStrings_perm in Hnd.
    pose proof (NoDup_lookup _ _ _ _ Hnd Ha Hb). lia. }
  unfold StringLe, String.leb in Hle. unfold String.ltb.
  destruct (String.compare a b) eqn:E; try done.
  by apply String.compare_eq_iff in E.
Qed.

Lemma setAdd_elem x y set : x ∈ setAdd y set <-> x = y \/ x ∈ set.
Proof.
  unfold setAdd. case_bool_decide as H.
  - split; [by right|]. intros [->|?]; done.
  - rewrite elem_of_app, list_elem_of_singleton. tauto.
Qed.

Lemma setAdd_NoDup y set : NoDup set -> NoDup (setAdd y set).
Proof.
  intros Hnd. unfold setAdd. case_bool_decide as H; [done|].
  apply NoDup_app. split; [done|]. split; [|apply NoDup_singleton].
  intros x Hx Hy. apply list_elem_of_singleton in Hy as ->. done.
Qed.

Lemma mapSetAdd_get k v m k' :
  JS.mapGet k' (mapSetAdd k v m) =
  if decide (k = k') then Some (setAdd v (default [] (JS.mapGet k m)))
  else JS.mapGet k' m.
Proof.
  induction m as [|[k0 vs] m IH]; simpl.
  - destruct (String.eqb_spec k k') as [->|Hne];
      [by rewrite decide_True|by rewrite decide_False].
  - destruct (String.eqb_spec k0 k) as [->|Hne]; simpl.
    + destruct (String.eqb_spec k k') as [->|Hne'];
        [by rewrite decide_True|by rewrite decide_False].
    + rewrite IH. destruct (String.eqb_spec k0 k') as [->|Hne'].
      * by rewrite decide_False by congruence.
      * done.
Qed.

(** The lookups in the two collections [extractUniqueCourses] builds. *)
Lemma uniqueCourses_fold courses :
  forall uniqueSubjects uniqueCourses,
    NoDup uniqueSubjects ->
    (forall k, NoDup (default [] (JS.mapGet k uniqueCourses))) ->
    let '(subjects', courses') :=
      fold_left (fun '(uniqueSubjects, uniqueCourses) course =>
                   (setAdd (subject course) uniqueSubjects,
                    mapSetAdd (subject course) (courseCode course) uniqueCourses))
                courses (uniqueSubjects, uniqueCourses) in
    NoDup subjects'
    /\ (forall s, s ∈ subjects' <->
                  s ∈ uniqueSubjects \/ exists c, c ∈ courses /\ subject c = s)
    /\ (forall k, NoDup (default [] (JS.mapGet k courses')))
    /\ (forall k code,
          code ∈ default [] (JS.mapGet k courses') <->
          code ∈ default [] (JS.mapGet k uniqueCourses)
          \/ exists c, c ∈ courses /\ subject c = k /\ courseCode c = code)
    /\ (forall k, JS.mapGet k courses' = None <->
                  JS.mapGet k uniqueCourses = None
                  /\ forall c, c ∈ courses -> subject c <> k).
Proof.
  induction courses as [|c courses IH]; intros S M HS HM.
  - simpl. split; [done|]. split.
    { intros s. split; [by left|]. intros [?|(c & Hc & _)]; [done|].
      by apply elem_of_nil in Hc. }
    split; [done|]. split.
    { intros k code. split; [by left|]. intros [?|(c & Hc & _)]; [done|].
      by apply elem_of_nil in Hc. }
    intros k. split; [|by intros [? _]]. intros H. split; [done|].
    intros c Hc. by apply elem_of_nil in Hc.
  - rewrite fold_left_step.
    specialize (IH (setAdd (subject c) S) (mapSetAdd (subject c) (courseCode c) M)).
    destruct (fold_left _ courses _) as [S' M'].
    destruct IH as (H1 & H2 & H3 & H4 & H5).
    { by apply setAdd_NoDup. }
    { intros k. rewrite mapSetAdd_get. case_decide; [|done]. simpl.
      apply setAdd_NoDup, HM. }
    split; [done|]. split; [|split; [done|split]].
    + intros s. rewrite H2, setAdd_elem. split.
      * intros [[->|?]|(c' & Hc' & Hs)].
        -- right. exists c. split; [by left|done].
        -- by left.
        -- right. exists c'. split; [by right|done].
      * intros [?|(c' & Hc' & Hs)]; [left; by right|].
        apply elem_of_cons in Hc' as [->|Hc']; [left; by left|].
        right. by exists c'.
    + intros k code. rewrite H4, mapSetAdd_get. split.
      * intros [Hin|(c' & Hc' & Hk & Hcode)].
        -- case_decide as Hk; simpl in Hin; [|by left].
           apply setAdd_elem in Hin as [->|Hin].
           ++ right. exists c. split; [by left|done].
           ++ left. by subst.
        -- right. exists c'. split; [by right|done].
      * intros [Hin|(c' & Hc' & Hk & Hcode)].
        -- left. case_decide as Hk; [|done]. simpl. apply setAdd_elem. right. by subst.
        -- apply elem_of_cons in Hc' as [->|Hc'].
           ++ left. rewrite decide_True by done. simpl. apply setAdd_elem. by left.
           ++ right. by exists c'.
    + intros k. rewrite H5, mapSetAdd_get. split.
      * intros [Hnone Hall]. case_decide as Hk; [done|]. split; [done|].
        intros c' Hc'. apply elem_of_cons in Hc' as [->|Hc']; [done|by apply Hall].
      * intros [Hnone Hall]. split.
        -- rewrite decide_False; [done|]. apply Hall. by left.
        -- intros c' Hc'. apply Hall. by right.
Qed.

Lemma mapGet_map_values {V W} (f : V -> W) k (m : list (string * V)) :
  JS.mapGet k (map (fun '(k', v) => (k', f v)) m) = f <$> JS.mapGet k m.
Proof.
  induction m as [|[k' v] m IH]; simpl; [done|].
  by destruct (String.eqb k' k).
Qed.

(** X5. [extractUniqueCourses(courses).subjects] lists exactly the subjects
    that occur in [courses], each once, in strictly ascending order. *)
Theorem extractUniqueCourses_subjects (courses : list CourseSection) :
  (forall s, s ∈ subjects (extractUniqueCourses courses) <->
             exists c, c ∈ courses /\ subject c = s)
  /\ StrictlyAscending (subjects (extractUniqueCourses courses)).
Proof.
  unfold extractUniqueCourses.
  pose proof (uniqueCourses_fold courses [] [] (NoDup_nil_2)
                (fun _ => NoDup_nil_2)) as H.
  destruct (fold_left _ courses _) as [S M].
  destruct H as (Hnd & Hin & _). simpl. split.
  - intros s. rewrite sortStrings_perm, Hin. split; [|by right].
    intros [H|H]; [by apply elem_of_nil in H|done].
  - by apply sortStrings_ascending.
Qed.

(** X6. [extractUniqueCourses(courses).coursesBySubject] has an entry for a
    subject exactly when the subject occurs in [courses]; the entry lists
    exactly the course codes that occur with this subject, each once, in
    strictly ascending order. *)
Theorem extractUniqueCourses_coursesBySubject (courses : list CourseSection)
  (s : string) :
  match JS.mapGet s (coursesBySubject (extractUniqueCourses courses)) with
  | None => forall c, c ∈ courses -> subject c <> s
  | Some codes =>
      (exists c, c ∈ courses /\ subject c = s)
      /\ (forall code,
            code ∈ codes <->
            exists c, c ∈ courses /\ subject c = s /\ courseCode c = code)
      /\ StrictlyAscending codes
  end.
Proof.
  unfold extractUniqueCourses.
  pose proof (uniqueCourses_fold courses [] [] (NoDup_nil_2)
                (fun _ => NoDup_nil_2)) as H.
  destruct (fold_left _ courses _) as [S M].
  destruct H as (_ & _ & Hnd & Hin & Hnone). simpl.
  rewrite mapGet_map_values. specialize (Hnd s). specialize (Hin s).
  specialize (Hnone s). destruct (JS.mapGet s M) as [codes|]; simpl in *.
  - split; [|split].
    + destruct (decide (Exists (fun c => subject c = s) courses)) as [Hex|Hno];
        [by apply Exists_exists in Hex|].
      rewrite Exists_exists in Hno.
      assert (@None (list string) = None /\ forall c, c ∈ courses -> subject c <> s)
        as Habs; [|apply Hnone in Habs; discriminate].
      split; [done|]. intros c Hc Hs. apply Hno. by exists c.
    + intros code. rewrite sortStrings_perm, Hin. split; [|by right].
      intros [H|H]; [by apply elem_of_nil in H|done].
    + by apply sortStrings_ascending.
  - by apply Hnone.
Qed.

Lemma append_length (a b : string) :
  String.length (a +:+ b) = (String.length a + String.length b)%nat.
Proof. induction a as [|x a IH]; simpl; [done|]. by rewrite IH. Qed.

Lemma append_inj_suffix (a1 a2 b1 b2 : string) :
  String.length b1 = String.length b2 ->
  a1 +:+ b1 = a2 +:+ b2 -> a1 = a2 /\ b1 = b2.
Proof.
  intros Hlen. revert a2. induction a1 as [|x a1 IH]; intros [|y a2] H; simpl in H.
  - done.
  - exfalso. apply (f_equal String.length) in H. simpl in H.
    rewrite !append_length in H. simpl in H. lia.
  - exfalso. apply (f_equal String.length) in H. simpl in H.
    rewrite !append_length in H. simpl in H. lia.
  - injection H as -> H. destruct (IH _ H) as [-> ->]. done.
Qed.

Lemma allDigits_length n s : allDigits n s = true -> String.length s = n.
Proof.
  unfold allDigits. intros H. apply andb_true_iff in H as [H _].
  by apply Nat.eqb_eq in H.
Qed.

Lemma courseIdOf_inj s1 s2 :
  String.length (courseCode s1) = String.length (courseCode s2) ->
  courseIdOf s1 = courseIdOf s2 ->
  subject s1 = subject s2 /\ courseCode s1 = courseCode s2.
Proof. intros Hlen H. by apply append_inj_suffix. Qed.

(** X7. Two well-formed sections have the same course identity string only
    if they have the same subject and the same course code: with three-digit
    course codes the concatenation of subject and course code names one
    course. *)
Theorem courseIdOf_names_one_course (s1 s2 : CourseSection) :
  ValidSection s1 -> ValidSection s2 ->
  (courseIdOf s1 = courseIdOf s2 <->
   subject s1 = subject s2 /\ courseCode s1 = courseCode s2).
Proof.
  intros (_ & _ & H1 & _) (_ & _ & H2 & _). split.
  - apply courseIdOf_inj.
    by rewrite (allDigits_length _ _ H1), (allDigits_length _ _ H2).
  - intros [Hs Hc]. unfold courseIdOf. by rewrite Hs, Hc.
Qed.

Lemma ValidSection_math101 : ValidSection Sample.math101.
Proof.
  repeat split; try done; try (by vm_compute);
    eexists _, _; (split; [by vm_compute|split; [by vm_compute|lia]]).
Qed.

Lemma ValidSection_math101b : ValidSection Sample.math101b.
Proof.
  repeat split; try done; try (by vm_compute);
    eexists _, _; (split; [by vm_compute|split; [by vm_compute|lia]]).
Qed.

Lemma courseIdOf_names_one_course_witness :
  courseIdOf Sample.math101 = courseIdOf Sample.math101b <->
  subject Sample.math101 = subject Sample.math101b
  /\ courseCode Sample.math101 = courseCode Sample.math101b.
Proof.
  exact (courseIdOf_names_one_course _ _ ValidSection_math101
           ValidSection_math101b).
Defined.

(** X8. On well-formed sections the groups of the generator are the
    answers of [getCourseSections]: the sections grouped under the identity
    of a subject and a three-digit course code are the sections with this
    subject and this course code, in input order. *)
Theorem groupSectionsByCourse_getCourseSections (courses : list CourseSection)
  (subject_ courseCode_ : string) :
  Forall ValidSection courses ->
  allDigits 3 courseCode_ = true ->
  sectionsOf (groupSectionsByCourse courses) (subject_ +:+ courseCode_)
  = getCourseSections courses subject_ courseCode_.
Proof.
  intros Hv Hcode. rewrite sectionsOf_group. unfold getCourseSections.
  induction Hv as [|s l Hs Hl IH]; [done|].
  rewrite !filter_cons, IH.
  destruct Hs as (_ & _ & Hc & _).
  assert (courseIdOf s = subject_ +:+ courseCode_ <->
          subject s = subject_ /\ courseCode s = courseCode_) as Hiff.
  { split.
    - apply append_inj_suffix.
      by rewrite (allDigits_length _ _ Hc), (allDigits_length _ _ Hcode).
    - intros [<- <-]. done. }
  repeat case_decide; tauto.
Qed.

Lemma groupSectionsByCourse_getCourseSections_witness :
  sectionsOf (groupSectionsByCourse [Sample.math101; Sample.math101b]) "MATH101"
  = getCourseSections [Sample.math101; Sample.math101b] "MATH" "101".
Proof.
  apply (groupSectionsByCourse_getCourseSections
           [Sample.math101; Sample.math101b] "MATH" "101").
  - constructor; [apply ValidSection_math101|].
    constructor; [apply ValidSection_math101b|constructor].
  - reflexivity.
Defined.

(* ===================================================================== *)
(** ** Conflict detector and filter predicate: further facts *)
(* ===================================================================== *)

(** X9. A well-formed section conflicts with itself. *)
Theorem hasTimeConflict_self (s : CourseSection) :
  ValidSection s -> hasTimeConflict s s = true.
Proof.
  intros (_ & _ & _ & _ & (_ & a & b & Ha & Hb & Hrange) & _).
  apply hasTimeConflict_exists. exists (fst (meetings s)), (fst (meetings s)).
  split; [by left|]. split; [by left|].
  apply meetingsOverlap_spec. split; [done|].
  exists a, b, a, b. repeat split; try done. lia.
Qed.

Lemma hasTimeConflict_self_witness : hasTimeConflict Sample.math101 Sample.math101 = true.
Proof. exact (hasTimeConflict_self _ ValidSection_math101). Defined.

Lemma Qltb_half (a b : Z) :
  JS.Qltb (inject_Z a) (Qdiv (inject_Z b) (inject_Z 2)) = true <-> 2 * a < b.
Proof.
  unfold JS.Qltb. rewrite negb_true_iff, <- not_true_iff_false, Qle_bool_iff.
  unfold Qle, Qdiv, Qmult, Qinv, inject_Z. simpl. lia.
Qed.

Lemma Qltb_half_false (a b : Z) :
  JS.Qltb (inject_Z a) (Qdiv (inject_Z b) (inject_Z 2)) = false <-> b <= 2 * a.
Proof. rewrite <- not_true_iff_false, Qltb_half. lia. Qed.

Lemma flat_map_types c :
  flat_map (fun section => map type (meetingList section)) c
  = map type (allMeetings c).
Proof.
  unfold allMeetings. induction c as [|s c IH]; [done|].
  cbn [flat_map]. by rewrite map_app, IH.
Qed.

Lemma filter_map_type t (ms : list CourseMeeting) :
  length (filter (fun x => x = t) (map type ms))
  = length (filter (fun m => type m = t) ms).
Proof.
  induction ms as [|m ms IH]; simpl; [done|].
  rewrite !filter_cons. destruct (decide (type m = t)); simpl; by rewrite IH.
Qed.

Lemma meetingsOfType_total c :
  (meetingsOfType Online c + meetingsOfType InPerson c = length (allMeetings c))%nat.
Proof.
  unfold meetingsOfType. induction (allMeetings c) as [|m ms IH]; simpl; [done|].
  rewrite !filter_cons. destruct (type m); simpl; lia.
Qed.

Lemma meetingsOfType_pos t c :
  (0 < meetingsOfType t c)%nat <->
  exists s m, s ∈ c /\ m ∈ meetingList s /\ type m = t.
Proof.
  unfold meetingsOfType, allMeetings. split.
  - intros H. destruct (filter _ _) as [|m ms] eqn:E; [simpl in H; lia|].
    assert (m ∈ filter (fun m => type m = t) (flat_map meetingList c)) as Hm
      by (rewrite E; by left).
    apply list_elem_of_filter in Hm as [Ht Hm].
    apply list_elem_of_In, in_flat_map in Hm as (s & Hs & Hm).
    exists s, m. by rewrite <- !list_elem_of_In in *.
  - intros (s & m & Hs & Hm & Ht).
    assert (m ∈ filter (fun m => type m = t) (flat_map meetingList c)) as Hin.
    { apply list_elem_of_filter. split; [done|].
      apply list_elem_of_In, in_flat_map. exists s. by rewrite <- !list_elem_of_In. }
    destruct (filter _ _); [by apply elem_of_nil in Hin|simpl; lia].
Qed.

Lemma deliveryModeCheck_counts c f :
  deliveryModeCheck c f =
  match deliveryMode f with
  | DeliveryMode_any => true
  | online => (meetingsOfType InPerson c <=? meetingsOfType Online c)%nat
  | inPerson => (meetingsOfType Online c <=? meetingsOfType InPerson c)%nat
  | hybrid => (0 <? meetingsOfType Online c)%nat
              && (0 <? meetingsOfType InPerson c)%nat
  end.
Proof.
  unfold deliveryModeCheck. cbv zeta. rewrite flat_map_types, !filter_map_type.
  rewrite length_map. fold (meetingsOfType Online c) (meetingsOfType InPerson c).
  pose proof (meetingsOfType_total c) as Htot.
  destruct (deliveryMode f); try done.
  - apply eq_true_iff_eq. rewrite negb_true_iff, Qltb_half_false, Nat.leb_le. lia.
  - apply eq_true_iff_eq. rewrite negb_true_iff, Qltb_half_false, Nat.leb_le. lia.
  - by rewrite negb_orb, !negb_involutive.
Qed.

(** X10. Under ['hybrid'] the delivery check accepts a combination exactly
    when it has at least one online meeting and at least one in-person
    meeting. *)
Theorem deliveryModeCheck_hybrid (c : list CourseSection) (f : ScheduleFilters) :
  deliveryMode f = hybrid ->
  (deliveryModeCheck c f = true <->
   (exists s m, s ∈ c /\ m ∈ meetingList s /\ type m = Online)
   /\ (exists s m, s ∈ c /\ m ∈ meetingList s /\ type m = InPerson)).
Proof.
  intros H. rewrite deliveryModeCheck_counts, H, andb_true_iff.
  by rewrite !Nat.ltb_lt, !meetingsOfType_pos.
Qed.

Lemma deliveryModeCheck_hybrid_witness :
  deliveryModeCheck [Sample.cprg305]
    (enabledFilters hybrid TimeOfDay_any ScheduleCompactness_any DaysOff_any)
  = true <->
  (exists s m, s ∈ [Sample.cprg305] /\ m ∈ meetingList s /\ type m = Online)
  /\ (exists s m, s ∈ [Sample.cprg305] /\ m ∈ meetingList s /\ type m = InPerson).
Proof. apply deliveryModeCheck_hybrid. reflexivity. Defined.

(** X11. Under ['online'] the delivery check accepts exactly when the online
    meetings are at least as many as the in-person ones, under ['inPerson']
    exactly when the in-person meetings are at least as many as the online
    ones; so every combination passes one of the two, and a combination
    with as many of the one kind as of the other passes both. *)
Theorem deliveryModeCheck_majority (c : list CourseSection)
  (t : TimeOfDay) (k : ScheduleCompactness) (o : DaysOff) :
  (deliveryModeCheck c (enabledFilters online t k o) = true <->
   (meetingsOfType InPerson c <= meetingsOfType Online c)%nat)
  /\ (deliveryModeCheck c (enabledFilters inPerson t k o) = true <->
      (meetingsOfType Online c <= meetingsOfType InPerson c)%nat)
  /\ (deliveryModeCheck c (enabledFilters online t k o) = true
      \/ deliveryModeCheck c (enabledFilters inPerson t k o) = true).
Proof.
  rewrite !deliveryModeCheck_counts. simpl. rewrite !Nat.leb_le.
  split; [done|]. split; [done|]. lia.
Qed.

(** X12. The three time-of-day bands are pairwise disjoint and cover the
    start times from 08:00 up to, not including, 21:00: a meeting that
    starts earlier or later, or whose start time is not a number, counts for
    no band. *)
Theorem timeOfDay_bands (t : string) :
  (forall b1 b2, inBand t b1 = true -> inBand t b2 = true -> b1 = b2)
  /\ ((exists b, inBand t b = true) <->
      exists m, timeToMinutes t = Some m /\ 480 <= m < 1260).
Proof.
  unfold inBand, isInTimeRange. destruct (timeToMinutes t) as [m|]; simpl.
  - split.
    + intros b1 b2. destruct b1, b2; simpl; try done;
        rewrite !andb_true_iff, !Z.leb_le, !Z.ltb_lt; lia.
    + split.
      * intros [b Hb]. exists m. split; [done|].
        destruct b; simpl in Hb; try done;
          rewrite andb_true_iff, Z.leb_le, Z.ltb_lt in Hb; lia.
      * intros (m' & [= <-] & Hm).
        destruct (Z_lt_dec m 720); [exists morning|
          destruct (Z_lt_dec m 1020); [exists afternoon|exists evening]];
          simpl; rewrite andb_true_iff, Z.leb_le, Z.ltb_lt; lia.
  - split.
    + intros b1 b2. by destruct b1.
    + split; [intros [b Hb]; by destruct b|intros (m & ? & _); done].
Qed.

(** X13. With the filters enabled, the empty combination is accepted
    exactly when no days-off target is set and the delivery mode is not
    ['hybrid']. *)
Theorem meetsFilterCriteria_empty (f : ScheduleFilters) :
  meetsFilterCriteria [] f = true <->
  isEnabled f = false
  \/ (daysOff f = DaysOff_any /\ deliveryMode f <> hybrid).
Proof.
  destruct f as [e d t k o]. destruct e, d, t, k, o; vm_compute;
    split; intros H; try done; try (by left); try (by right);
    destruct H as [H|[H1 H2]]; done.
Qed.

Lemma activeDays_meetings_size (ms : list CourseMeeting) (acc : gset string) :
  (size (fold_left (fun activeDays meeting => activeDays ∪ {[ day meeting ]})
                   ms acc)
   <= size acc + length ms)%nat.
Proof.
  revert acc. induction ms as [|m ms IH]; intros acc; simpl; [lia|].
  etrans; [apply IH|].
  rewrite size_union_alt.
  assert (size (({[day m]} : gset string) ∖ acc) <= 1)%nat.
  { etrans; [apply subseteq_size, subseteq_difference_l; reflexivity|].
    by rewrite size_singleton. }
  lia.
Qed.

Lemma getActiveDays_size c : (size (getActiveDays c) <= 2 * length c)%nat.
Proof.
  unfold getActiveDays.
  assert (forall acc : gset string,
            (size (fold_left (fun activeDays section =>
                     fold_left (fun activeDays meeting =>
                                  activeDays ∪ {[ day meeting ]})
                               (meetingList section) activeDays) c acc)
             <= size acc + 2 * length c)%nat) as H.
  { induction c as [|s c IH]; intros acc; [simpl; lia|].
    rewrite fold_left_step. etrans; [apply IH|].
    pose proof (activeDays_meetings_size (meetingList s) acc) as Hs.
    simpl length in *. lia. }
  specialize (H ∅). by rewrite size_empty in H.
Qed.

(** X14. With the filters enabled and a days-off target set (['oneDay'] or
    ['twoDays']), an accepted combination has at least two sections: one
    section alone meets on at most two days. *)
Theorem daysOff_needs_two_sections (c : list CourseSection) (f : ScheduleFilters) :
  isEnabled f = true -> daysOff f <> DaysOff_any ->
  meetsFilterCriteria c f = true -> (2 <= length c)%nat.
Proof.
  intros He Hd. unfold meetsFilterCriteria. rewrite He. simpl.
  destruct (daysOffCheck c f) eqn:Hc; [|done]. intros _.
  pose proof (getActiveDays_size c) as Hsize.
  unfold daysOffCheck, daysOffCount in Hc. simpl length in Hc.
  destruct (daysOff f); [done| |]; apply Z.eqb_eq in Hc; lia.
Qed.

Lemma daysOff_needs_two_sections_witness :
  meetsFilterCriteria [Sample.math101; Sample.chem301]
    Sample.twoDaysOffFilters = true
  /\ (2 <= length [Sample.math101; Sample.chem301])%nat.
Proof.
  split; [by vm_compute|].
  apply (daysOff_needs_two_sections _ Sample.twoDaysOffFilters).
  - reflexivity.
  - discriminate.
  - by vm_compute.
Defined.

Lemma fold_left_allMeetings {A} (g : A -> CourseMeeting -> A) c (a : A) :
  fold_left (fun acc section => fold_left g (meetingList section) acc) c a
  = fold_left g (allMeetings c) a.
Proof.
  unfold allMeetings. revert a. induction c as [|s c IH]; intros a; [done|].
  rewrite fold_left_step. cbn [flat_map]. by rewrite fold_left_app, IH.
Qed.

Lemma count_fold (P : CourseMeeting -> Prop) `{!forall m, Decision (P m)} c n :
  fold_left (fun count section =>
               (count + length (filter P (meetingList section)))%nat) c n
  = (n + length (filter P (allMeetings c)))%nat.
Proof.
  unfold allMeetings. revert n. induction c as [|s c IH]; intros n.
  - simpl. lia.
  - rewrite fold_left_step, IH. cbn [flat_map].
    rewrite filter_app, length_app. lia.
Qed.

Lemma total_fold c n :
  fold_left (fun count section => (count + length (meetingList section))%nat) c n
  = (n + 2 * length c)%nat.
Proof.
  revert n. induction c as [|s c IH]; intros n; [simpl; lia|].
  rewrite fold_left_step, IH. simpl. lia.
Qed.

(** X15. Under a time-of-day band the check accepts a combination exactly
    when the meetings that start in the band are at least as many as the
    sections, that is at least half of the meetings. *)
Theorem timeOfDayCheck_majority (c : list CourseSection) (f : ScheduleFilters) :
  timeOfDay f <> TimeOfDay_any ->
  (timeOfDayCheck c f = true <->
   (length c <= meetingsInBand (timeOfDay f) c)%nat).
Proof.
  intros Hany. unfold timeOfDayCheck, meetingsInBand, inBand.
  destruct (timeRanges (timeOfDay f)) as [range|] eqn:Hr;
    [|by destruct (timeOfDay f)].
  cbv zeta. rewrite count_fold, total_fold.
  rewrite negb_true_iff, Qltb_half_false. simpl. lia.
Qed.

Lemma timeOfDayCheck_majority_witness :
  timeOfDayCheck [Sample.math101; Sample.cprg305]
    (enabledFilters DeliveryMode_any morning ScheduleCompactness_any DaysOff_any)
  = true <->
  (length [Sample.math101; Sample.cprg305]
   <= meetingsInBand morning [Sample.math101; Sample.cprg305])%nat.
Proof. apply timeOfDayCheck_majority. discriminate. Defined.

Lemma mapPush_fresh {V} k (v : V) m :
  k ∉ map fst m -> JS.mapPush k v m = m ++ [(k, [v])].
Proof.
  induction m as [|[k' vs] m IH]; intros Hk; simpl; [done|].
  destruct (String.eqb_spec k' k) as [->|Hne].
  - exfalso. apply Hk. by left.
  - rewrite IH; [done|]. intros Hin. apply Hk. by right.
Qed.

(** With pairwise different days every meeting opens an entry of its own in
    [meetingsByDay]. *)
Lemma meetingsByDay_distinct (ms : list CourseMeeting) m0 :
  NoDup (map fst m0 ++ map day ms) ->
  fold_left (fun m meeting =>
               JS.mapPush (day meeting)
                 {| slot_start := startTime (time meeting);
                    slot_end := endTime (time meeting) |} m) ms m0
  = m0 ++ map (fun meeting =>
                 (day meeting,
                  [ {| slot_start := startTime (time meeting);
                       slot_end := endTime (time meeting) |} ])) ms.
Proof.
  revert m0. induction ms as [|x ms IH]; intros m0 Hnd.
  - simpl. by rewrite app_nil_r.
  - rewrite fold_left_step. simpl map in *.
    apply NoDup_app in Hnd as (Hm0 & Hdisj & Hms).
    apply NoDup_cons in Hms as [Hx Hms].
    rewrite mapPush_fresh.
    2:{ intros Hin. apply (Hdisj _ Hin). by left. }
    rewrite IH.
    + by rewrite <- app_assoc.
    + rewrite map_app. simpl. rewrite <- app_assoc. simpl.
      apply NoDup_app. split; [done|]. split.
      * intros k Hk Hin. apply (Hdisj _ Hk). done.
      * by constructor.
Qed.

Lemma compactness_fold_single mode (entries : list (string * list Slot)) acc :
  Forall (fun e => (length (snd e) < 2)%nat) entries ->
  fold_left (fun '(valid, total) '(_, ms) =>
               if (length ms <? 2)%nat then (valid, total)
               else
                 let sortedMeetings := sortMeetings ms in
                 if gapsAreValid mode sortedMeetings
                 then (S valid, S total) else (valid, S total))
            entries acc = acc.
Proof.
  intros H. revert acc. induction H as [|[k ms] entries Hk _ IH]; intros [v t];
    [done|].
  rewrite fold_left_step. simpl in Hk.
  apply Nat.ltb_lt in Hk. rewrite Hk. apply IH.
Qed.

(** X16. A combination in which no two meetings are on the same day passes
    the compactness check, under ['compact'] and under ['spread'] alike. *)
Theorem compactnessCheck_distinct_days (c : list CourseSection)
  (f : ScheduleFilters) :
  NoDup (map day (allMeetings c)) -> compactnessCheck c f = true.
Proof.
  intros Hnd. unfold compactnessCheck.
  destruct (scheduleCompactness f) eqn:Hmode; [| |done].
  all: rewrite (fold_left_allMeetings
             (fun m meeting =>
                JS.mapPush (day meeting)
                  {| slot_start := startTime (time meeting);
                     slot_end := endTime (time meeting) |} m));
    rewrite (meetingsByDay_distinct _ []) by done;
    rewrite compactness_fold_single;
    [done|apply Forall_forall; intros e He; simpl in He;
          apply list_elem_of_fmap in He as (m & -> & _); simpl; lia].
Qed.

Lemma compactnessCheck_distinct_days_witness :
  NoDup (map day (allMeetings [Sample.math101; Sample.art110]))
  /\ compactnessCheck [Sample.math101; Sample.art110]
       (enabledFilters DeliveryMode_any TimeOfDay_any spread DaysOff_any) = true.
Proof.
  assert (NoDup (map day (allMeetings [Sample.math101; Sample.art110]))) as H
    by compute_done.
  split; [exact H|]. by apply compactnessCheck_distinct_days.
Defined.

(* ===================================================================== *)
(** ** The generator: further facts *)
(* ===================================================================== *)

Section GeneratorFacts.
Variable allSections : list CourseSection.
Variable selectedCourseIds : gset string.

Local Abbreviation selectedSections :=
  (filter (fun section => courseIdOf section ∈ selectedCourseIds) allSections).
Local Abbreviation G := (groupSectionsByCourse selectedSections).
Local Abbreviation order := (map fst G).

Lemma returned_accepted filters rnd c :
  c ∈ returnedCombinations
        (generateNonConflictingSchedules allSections selectedCourseIds filters rnd)
  <-> c ∈ enumerate G order [] /\ meetsFilterCriteria c filters = true.
Proof.
  unfold returnedCombinations.
  rewrite (generate_combinations_perm allSections selectedCourseIds filters rnd).
  unfold accepted.
  change (map sections (map mkCombination ?l)) with (sections <$> (mkCombination <$> l)).
  rewrite <- list_fmap_compose, list_fmap_id.
  by rewrite list_elem_of_In, filter_In, <- list_elem_of_In.
Qed.

Lemma order_sections_nonempty courseId :
  courseId ∈ order -> exists s, s ∈ sectionsOf G courseId.
Proof.
  intros H. apply order_elem in H as (Hsel & s & Hs & Hid).
  exists s. apply sectionsOf_G. by rewrite Hid.
Qed.

(** The first course of the traversal is never left out. *)
Lemma extension_first_course courseId rest c :
  order = courseId :: rest ->
  Extension G order [] c ->
  exists s t, c = s :: t /\ courseIdOf s = courseId.
Proof.
  intros Ho (Hsub & _ & _ & _ & Hblk).
  pose proof (order_NoDup allSections selectedCourseIds) as Hnd.
  rewrite Ho in Hsub, Hnd. apply NoDup_cons in Hnd as [Hfresh _].
  apply sublist_cons_r in Hsub as [Hsub|(ids & Heq & _)].
  - exfalso.
    assert (courseId ∉ map courseIdOf c) as Hout.
    { intros Hin. apply Hfresh. eapply elem_of_sublist; eauto. }
    destruct (order_sections_nonempty courseId) as [s Hs];
      [rewrite Ho; by left|].
    destruct (Hblk [] courseId rest Ho Hout s Hs) as (e & [He|[_ He]] & _);
      by apply elem_of_nil in He.
  - destruct c as [|s t]; [done|]. simpl in Heq. injection Heq as Hid _.
    by exists s, t.
Qed.

Lemma sublist_full {A} (l k : list A) :
  NoDup k -> l `sublist_of` k -> (forall x, x ∈ k -> x ∈ l) -> l = k.
Proof.
  intros Hnd Hsub. induction Hsub as [|x l k Hsub IH|x l k Hsub IH]; intros Hall.
  - done.
  - apply NoDup_cons in Hnd as [Hx Hnd]. f_equal. apply IH; [done|].
    intros y Hy. assert (y ∈ x :: l) as Hin by (apply Hall; by right).
    apply elem_of_cons in Hin as [->|Hin]; done.
  - apply NoDup_cons in Hnd as [Hx Hnd]. exfalso. apply Hx.
    eapply elem_of_sublist; [|exact Hsub]. apply Hall. by left.
Qed.

(** Without a conflict between sections of different courses no course is
    left out. *)
Lemma extension_complete c :
  (forall s1 s2, s1 ∈ selectedSections -> s2 ∈ selectedSections ->
                 courseIdOf s1 <> courseIdOf s2 -> hasTimeConflict s1 s2 = false) ->
  Extension G order [] c ->
  map courseIdOf c = order.
Proof.
  intros Hfree (Hsub & Hmem & _ & _ & Hblk).
  pose proof (order_NoDup allSections selectedCourseIds) as Hnd.
  apply sublist_full; [done|done|].
  intros courseId Hin.
  destruct (decide (courseId ∈ map courseIdOf c)) as [|Hout]; [done|exfalso].
  apply list_elem_of_split in Hin as (pre & post & Ho).
  destruct (order_sections_nonempty courseId) as [s Hs].
  { rewrite Ho. apply elem_of_app. right. by left. }
  destruct (Hblk pre courseId post Ho Hout s Hs) as (e & [He|[He Hpre]] & Hc).
  { by apply elem_of_nil in He. }
  assert (courseIdOf s = courseId) as Hid.
  { apply sectionsOf_group_elem in Hs. tauto. }
  rewrite Hfree in Hc; [done| | |].
  - apply sectionsOf_group_elem in Hs. tauto.
  - apply Hmem in He. apply sectionsOf_group_elem in He. tauto.
  - rewrite Hid. intros Heq. rewrite Ho in Hnd.
    apply NoDup_app in Hnd as (_ & Hdisj & _). apply (Hdisj _ Hpre).
    rewrite <- Heq. by left.
Qed.
End GeneratorFacts.

(** X17. The filters only take combinations away: whatever the filters and
    the random draws, the returned combinations are the combinations
    returned with the filters disabled that pass [meetsFilterCriteria]. *)
Theorem generate_filters_select
  (allSections : list CourseSection) (selectedCourseIds : gset string)
  (filters : ScheduleFilters) (rnd rnd' : nat -> Z) (c : list CourseSection) :
  c ∈ returnedCombinations
        (generateNonConflictingSchedules allSections selectedCourseIds filters rnd)
  <-> c ∈ returnedCombinations
            (generateNonConflictingSchedules allSections selectedCourseIds
               defaultFilters rnd')
      /\ meetsFilterCriteria c filters = true.
Proof.
  rewrite !returned_accepted.
  rewrite (meetsFilterCriteria_disabled c defaultFilters eq_refl). tauto.
Qed.

(** X18. [Math.random] decides the order only: for two sequences of draws
    the returned lists are permutations of one another. *)
Theorem generate_random_permutes
  (allSections : list CourseSection) (selectedCourseIds : gset string)
  (filters : ScheduleFilters) (rnd rnd' : nat -> Z) :
  combinations
    (generateNonConflictingSchedules allSections selectedCourseIds filters rnd)
  ≡ₚ combinations
       (generateNonConflictingSchedules allSections selectedCourseIds filters rnd').
Proof. by rewrite !generate_combinations_perm. Qed.

(** X19. Every section of a returned combination is a section of the input
    whose course identity is selected; [courseCount] is the number of
    sections of the combination and is at most the number of courses in
    [stats.coursesIncluded]. *)
Theorem generated_combinations_from_input
  (allSections : list CourseSection) (selectedCourseIds : gset string)
  (filters : ScheduleFilters) (rnd : nat -> Z) (c : ScheduleCombination) :
  let r := generateNonConflictingSchedules allSections selectedCourseIds
             filters rnd in
  c ∈ combinations r ->
  (forall s, s ∈ sections c ->
             s ∈ allSections /\ courseIdOf s ∈ selectedCourseIds)
  /\ courseCount c = length (sections c)
  /\ (courseCount c <= length (coursesIncluded (stats r)))%nat.
Proof.
  intros r Hc.
  destruct (returned_enumerated _ _ _ _ _ Hc) as [_ Hcount].
  apply returned_extension in Hc as (Hsub & Hmem & _).
  split; [|split; [done|]].
  - intros s Hs. apply Hmem, sectionsOf_G in Hs. tauto.
  - rewrite Hcount. apply sublist_length in Hsub.
    by rewrite length_map in Hsub.
Qed.

Lemma generated_combinations_from_input_witness :
  let r := generateNonConflictingSchedules
             [Sample.math101; Sample.phys201; Sample.chem301]
             {[ "MATH101"; "PHYS201"; "CHEM301" ]}%string
             defaultFilters Sample.noRandom in
  (courseCount (mkCombination [Sample.math101; Sample.chem301])
   <= length (coursesIncluded (stats r)))%nat.
Proof.
  intros r.
  assert (mkCombination [Sample.math101; Sample.chem301] ∈ combinations r) as H.
  { vm_compute. constructor. }
  by destruct (generated_combinations_from_input _ _ _ _ _ H) as (_ & _ & ?).
Defined.

(** X20. The first course of [stats.coursesIncluded] is never left out:
    every returned combination starts with a section of it, so with at
    least one selected course that has a section no returned combination is
    empty. *)
Theorem generated_combinations_first_course
  (allSections : list CourseSection) (selectedCourseIds : gset string)
  (filters : ScheduleFilters) (rnd : nat -> Z)
  (courseId : string) (rest : list string) (c : ScheduleCombination) :
  let r := generateNonConflictingSchedules allSections selectedCourseIds
             filters rnd in
  coursesIncluded (stats r) = courseId :: rest ->
  c ∈ combinations r ->
  exists s t, sections c = s :: t /\ courseIdOf s = courseId.
Proof.
  intros r Ho Hc. apply returned_extension in Hc.
  exact (extension_first_course _ _ _ _ _ Ho Hc).
Qed.

Lemma generated_combinations_first_course_witness :
  exists s t, [Sample.phys201] = s :: t /\ courseIdOf s = "PHYS201"%string.
Proof.
  apply (generated_combinations_first_course
           [Sample.phys201; Sample.math101; Sample.chem301]
           {[ "MATH101"; "PHYS201"; "CHEM301" ]}%string
           defaultFilters Sample.noRandom "PHYS201"
           ["MATH101"; "CHEM301"]%string (mkCombination [Sample.phys201])).
  - by vm_compute.
  - vm_compute. constructor.
Defined.

(** X21. When no two selected sections of different courses conflict, every
    returned combination holds one section for every course of
    [stats.coursesIncluded], in that order. *)
Theorem generated_combinations_complete
  (allSections : list CourseSection) (selectedCourseIds : gset string)
  (filters : ScheduleFilters) (rnd : nat -> Z) (c : ScheduleCombination) :
  let r := generateNonConflictingSchedules allSections selectedCourseIds
             filters rnd in
  (forall s1 s2,
     s1 ∈ allSections -> s2 ∈ allSections ->
     courseIdOf s1 ∈ selectedCourseIds -> courseIdOf s2 ∈ selectedCourseIds ->
     courseIdOf s1 <> courseIdOf s2 -> hasTimeConflict s1 s2 = false) ->
  c ∈ combinations r ->
  map courseIdOf (sections c) = coursesIncluded (stats r)
  /\ courseCount c = length (coursesIncluded (stats r)).
Proof.
  intros r Hfree Hc.
  destruct (returned_enumerated _ _ _ _ _ Hc) as [_ Hcount].
  apply returned_extension in Hc.
  assert (map courseIdOf (sections c) = coursesIncluded (stats r)) as Heq.
  { apply extension_complete; [|done].
    intros s1 s2 H1 H2. apply list_elem_of_filter in H1 as [? ?], H2 as [? ?].
    by apply Hfree. }
  split; [done|]. by rewrite Hcount, <- Heq, length_map.
Qed.

Lemma generated_combinations_complete_witness :
  let r := generateNonConflictingSchedules
             [Sample.math101; Sample.chem301]
             {[ "MATH101"; "CHEM301" ]}%string
             defaultFilters Sample.noRandom in
  map courseIdOf (sections (mkCombination [Sample.math101; Sample.chem301]))
  = coursesIncluded (stats r)
  /\ courseCount (mkCombination [Sample.math101; Sample.chem301])
     = length (coursesIncluded (stats r)).
Proof.
  apply (generated_combinations_complete
           [Sample.math101; Sample.chem301]
           {[ "MATH101"; "CHEM301" ]}%string
           defaultFilters Sample.noRandom
           (mkCombination [Sample.math101; Sample.chem301])).
  - intros s1 s2 H1 H2 _ _ Hne.
    repeat (apply elem_of_cons in H1 as [->|H1]);
      repeat (apply elem_of_cons in H2 as [->|H2]);
      try (by apply elem_of_nil in H1); try (by apply elem_of_nil in H2);
      try done; by vm_compute.
  - vm_compute. constructor.
Defined.

Lemma enumerate_prefix G pending :
  forall cur c, c ∈ enumerate G pending cur -> cur `prefix_of` c.
Proof.
  induction pending as [|courseId rest IH]; intros cur c Hc; simpl in Hc.
  - apply list_elem_of_singleton in Hc as ->. done.
  - destruct (List.filter _ _) as [|s0 l] eqn:Hf; [by apply IH|].
    rewrite <- Hf in Hc. apply list_elem_of_In, in_flat_map in Hc as (s & _ & Hc).
    apply list_elem_of_In, IH in Hc. etrans; [|exact Hc]. by apply prefix_app_r.
Qed.

(** X22. A call of [buildCombinations] leaves the working array
    [currentCombination] as it found it (every push is undone by its pop)
    and only appends to the result array: each appended entry extends the
    working array, passes the filter predicate and has the number of its
    sections as [courseCount]. *)
Theorem buildCombinations_restores
  (sectionsByCourse : list (string * list CourseSection))
  (filters : ScheduleFilters) (pending : list string) (st : SearchState) :
  let st' := buildCombinations sectionsByCourse filters pending st in
  currentCombination st' = currentCombination st
  /\ exists added,
       found st' = found st ++ added
       /\ Forall (fun x =>
                    currentCombination st `prefix_of` sections x
                    /\ meetsFilterCriteria (sections x) filters = true
                    /\ courseCount x = length (sections x)) added.
Proof.
  intros st'. unfold st'.
  rewrite (buildCombinations_spec sectionsByCourse filters pending st). simpl.
  split; [done|]. eexists. split; [reflexivity|].
  unfold accepted. apply Forall_forall. intros x Hx.
  apply list_elem_of_fmap in Hx as (c & -> & Hc).
  apply list_elem_of_In, filter_In in Hc as [Hc Hm]. simpl.
  split; [|done]. eapply enumerate_prefix. by apply list_elem_of_In.
Qed.

Lemma flat_map_mapPush {V} k (v : V) m :
  flat_map snd (JS.mapPush k v m) ≡ₚ v :: flat_map snd m.
Proof.
  induction m as [|[k' vs] m IH]; simpl; [done|].
  destruct (String.eqb k' k); simpl.
  - rewrite <- app_assoc. simpl. by rewrite <- Permutation_middle.
  - rewrite IH. by rewrite <- Permutation_middle.
Qed.

Lemma mapGet_of_entry {V} k (v : V) (m : list (string * V)) :
  NoDup (map fst m) -> (k, v) ∈ m -> JS.mapGet k m = Some v.
Proof.
  induction m as [|[k' v'] m IH]; intros Hnd Hin; simpl.
  - by apply elem_of_nil in Hin.
  - simpl in Hnd. apply NoDup_cons in Hnd as [Hk Hnd].
    apply elem_of_cons in Hin as [[= -> ->]|Hin].
    + by rewrite String.eqb_refl.
    + destruct (String.eqb_spec k' k) as [->|Hne]; [|by apply IH].
      exfalso. apply Hk. apply list_elem_of_fmap. by exists (k, v).
Qed.

Lemma groupSectionsByCourse_perm l :
  flat_map snd (groupSectionsByCourse l) ≡ₚ l.
Proof.
  induction l as [|s l IH] using rev_ind; [done|].
  rewrite groupSectionsByCourse_snoc, flat_map_mapPush, IH.
  by rewrite <- Permutation_cons_append.
Qed.

(** X23. [groupSectionsByCourse] sorts the sections into groups without
    losing or repeating one: the keys are pairwise different, the groups
    together are a permutation of the input, and the group of a key is the
    non-empty list of the input sections with this course identity, in
    input order. *)
Theorem groupSectionsByCourse_partition (courses : list CourseSection) :
  NoDup (map fst (groupSectionsByCourse courses))
  /\ flat_map snd (groupSectionsByCourse courses) ≡ₚ courses
  /\ (forall courseId secs,
        (courseId, secs) ∈ groupSectionsByCourse courses ->
        secs <> []
        /\ secs = filter (fun s => courseIdOf s = courseId) courses).
Proof.
  split; [apply groupSectionsByCourse_keys_NoDup|].
  split; [apply groupSectionsByCourse_perm|].
  intros courseId secs Hin.
  pose proof (mapGet_of_entry _ _ _ (groupSectionsByCourse_keys_NoDup courses) Hin)
    as Hget.
  pose proof (sectionsOf_group courses courseId) as Hsec.
  unfold sectionsOf in Hsec. rewrite Hget in Hsec. simpl in Hsec.
  split; [|done].
  assert (courseId ∈ map fst (groupSectionsByCourse courses)) as Hkey.
  { apply list_elem_of_fmap. by exists (courseId, secs). }
  apply groupSectionsByCourse_keys in Hkey as (s & Hs & Hid).
  intros ->. assert (s ∈ filter (fun s => courseIdOf s = courseId) courses) as Hf.
  { by apply list_elem_of_filter. }
  rewrite <- Hsec in Hf. by apply elem_of_nil in Hf.
Qed.

(* ===================================================================== *)
(** ** From the upload to the generated schedules *)
(* ===================================================================== *)

Lemma parseCourseCsv_data_valid csvContent l :
  data (parseCourseCsv csvContent) = Some l ->
  isValid (parseCourseCsv csvContent) = true.
Proof.
  unfold parseCourseCsv. cbv zeta. case_bool_decide; [discriminate|]. simpl.
  by destruct (length (ps_errors _) =? 0)%nat.
Qed.

(** X24. After the upload of a text that parses to at least one section,
    with the selection [handleFileChange] installs (every course identity of
    the data) and the filters disabled, the generator covers every course
    of the data in [stats.coursesIncluded], no returned combination is
    empty, and [handleGenerateSchedules] takes its success branch. *)
Theorem upload_then_generate (csvContent : string) (l : list CourseSection)
  (filters : ScheduleFilters) (rnd : nat -> Z) :
  data (parseCourseCsv csvContent) = Some l ->
  l <> [] ->
  isEnabled filters = false ->
  let r := generateNonConflictingSchedules l
             (uploadSelection (parseCourseCsv csvContent)) filters rnd in
  generationOutcome r = Generated r
  /\ (forall s, s ∈ l -> courseIdOf s ∈ coursesIncluded (stats r))
  /\ (forall c, c ∈ combinations r -> (1 <= courseCount c)%nat).
Proof.
  intros Hdata Hne Hoff r.
  assert (uploadSelection (parseCourseCsv csvContent)
          = list_to_set (map courseIdOf l)) as Hsel.
  { unfold uploadSelection.
    by rewrite Hdata, (parseCourseCsv_data_valid _ _ Hdata). }
  assert (forall s, s ∈ l -> courseIdOf s ∈ coursesIncluded (stats r)) as Hcover.
  { intros s Hs. apply order_elem. split; [|by exists s].
    rewrite Hsel. apply elem_of_list_to_set, list_elem_of_fmap. by exists s. }
  split; [|split; [done|]].
  - unfold generationOutcome.
    destruct (enumerate (groupSectionsByCourse
                (filter (fun s => courseIdOf s ∈
                           uploadSelection (parseCourseCsv csvContent)) l))
                (coursesIncluded (stats r)) []) as [|c cs] eqn:He.
    { by apply enumerate_nonempty in He. }
    assert (c ∈ returnedCombinations r) as Hc.
    { apply returned_disabled; [done|]. unfold r in He. simpl in He.
      rewrite He. by left. }
    unfold returnedCombinations in Hc.
    destruct (combinations r) as [|x xs]; [by apply elem_of_nil in Hc|done].
  - intros c Hc. destruct l as [|s l']; [done|].
    assert (courseIdOf s ∈ coursesIncluded (stats r)) as Hin
      by (apply Hcover; by left).
    destruct (coursesIncluded (stats r)) as [|courseId rest] eqn:Ho;
      [by apply elem_of_nil in Hin|].
    destruct (returned_enumerated _ _ _ _ _ Hc) as [_ Hcount].
    apply returned_extension in Hc.
    destruct (extension_first_course _ _ _ _ _ Ho Hc) as (s0 & t & Hst & _).
    rewrite Hcount, Hst. simpl. lia.
Qed.

Lemma upload_then_generate_witness :
  let r := generateNonConflictingSchedules [Sample.cprg305]
             (uploadSelection (parseCourseCsv Sample.goodCsv))
             defaultFilters Sample.noRandom in
  generationOutcome r = Generated r
  /\ (forall s, s ∈ [Sample.cprg305] -> courseIdOf s ∈ coursesIncluded (stats r))
  /\ (forall c, c ∈ combinations r -> (1 <= courseCount c)%nat).
Proof.
  apply (upload_then_generate Sample.goodCsv [Sample.cprg305] defaultFilters
           Sample.noRandom).
  - by vm_compute.
  - discriminate.
  - reflexivity.
Defined.

(* ===================================================================== *)
(** ** Formatting and navigation *)
(* ===================================================================== *)

Lemma split_free sep s : freeOf sep s -> JS.split sep s = [s].
Proof.
  induction s as [|x s IH]; simpl; [done|]. intros [Hx Hs].
  rewrite (proj2 (Ascii.eqb_neq x sep) Hx), IH; done.
Qed.

Lemma split_free_app sep p rest :
  freeOf sep p ->
  JS.split sep (p +:+ String sep rest) = p :: JS.split sep rest.
Proof.
  induction p as [|x p IH]; intros Hp.
  - simpl. by rewrite Ascii.eqb_refl.
  - destruct Hp as [Hx Hp].
    change (String x p +:+ String sep rest)
      with (String x (p +:+ String sep rest)).
    rewrite split_skip.
    + by rewrite IH.
    + by apply Ascii.eqb_neq.
Qed.

Lemma split_concat sep (ls : list string) :
  ls <> [] -> Forall (freeOf sep) ls ->
  JS.split sep (String.concat (String sep EmptyString) ls) = ls.
Proof.
  intros Hne Hfree. induction Hfree as [|p ls Hp Hls IH]; [done|].
  destruct ls as [|q ls].
  - simpl. by apply split_free.
  - change (String.concat (String sep EmptyString) (p :: q :: ls))
      with (p +:+ String sep (String.concat (String sep EmptyString) (q :: ls))).
    rewrite split_free_app by done. f_equal. by apply IH.
Qed.

Lemma freeOf_app c a b : freeOf c a -> freeOf c b -> freeOf c (a +:+ b).
Proof. induction a as [|x a IH]; simpl; [done|]. intros [? ?] ?. split; auto. Qed.

Lemma formatLine_free s :
  freeOf lineFeed (subject s) -> freeOf lineFeed (courseCode s) ->
  freeOf lineFeed (crn s) -> freeOf lineFeed (formatLine s).
Proof.
  intros H1 H2 H3. unfold formatLine.
  repeat (apply freeOf_app; try done); by vm_compute.
Qed.

Lemma formatScheduleCombination_lines c :
  formatScheduleCombination c
  = String.concat (String lineFeed EmptyString) (map formatLine (sections c)).
Proof. reflexivity. Qed.

(** X25. [formatScheduleCombination] writes one line per section: for a
    combination with at least one section, whose subjects, course codes and
    CRNs hold no line feed, splitting the text at the line feeds gives back
    the lines [<subject> <courseCode> (CRN: <crn>)] of its sections, in
    order.  The text of a combination without sections is empty. *)
Theorem formatScheduleCombination_split (c : ScheduleCombination) :
  Forall (fun s => freeOf lineFeed (subject s)
                   /\ freeOf lineFeed (courseCode s)
                   /\ freeOf lineFeed (crn s)) (sections c) ->
  (sections c <> [] ->
   JS.split lineFeed (formatScheduleCombination c) = map formatLine (sections c))
  /\ (sections c = [] -> formatScheduleCombination c = EmptyString).
Proof.
  intros Hfree. rewrite formatScheduleCombination_lines. split.
  - intros Hne. apply split_concat.
    + by destruct (sections c).
    + apply Forall_fmap. eapply Forall_impl; [exact Hfree|].
      intros s (H1 & H2 & H3). by apply formatLine_free.
  - by intros ->.
Qed.

Lemma formatScheduleCombination_split_witness :
  JS.split lineFeed
    (formatScheduleCombination (mkCombination [Sample.math101; Sample.chem301]))
  = ["MATH 101 (CRN: 10001)"; "CHEM 301 (CRN: 10003)"]%string.
Proof.
  apply (formatScheduleCombination_split
           (mkCombination [Sample.math101; Sample.chem301])).
  - repeat constructor; by vm_compute.
  - discriminate.
Defined.

(** X26. [nextCombination] and [previousCombination] keep the index inside
    the list of combinations: if the context shows a combination before the
    call it shows one after it, and the index moves by at most one. *)
Theorem navigation_stays_in_range (ctx : ScheduleContext) :
  is_Some (currentCombinationOf ctx) ->
  is_Some (currentCombinationOf (nextCombination ctx))
  /\ is_Some (currentCombinationOf (previousCombination ctx))
  /\ currentCombinationIndex ctx
     <= currentCombinationIndex (nextCombination ctx)
     <= currentCombinationIndex ctx + 1
  /\ currentCombinationIndex ctx - 1
     <= currentCombinationIndex (previousCombination ctx)
     <= currentCombinationIndex ctx.
Proof.
  unfold currentCombinationOf, nextCombination, previousCombination.
  destruct ctx as [[results|] idx]; simpl; [|by intros [? ?]].
  destruct (Z.ltb_spec idx 0) as [Hneg|Hpos]; [by intros [? ?]|].
  intros Hcur. pose proof Hcur as Hlt. apply lookup_lt_is_Some in Hlt.
  split; [|split; [|split]].
  - destruct (Z.ltb_spec idx (Z.of_nat (length (combinations results)) - 1));
      simpl.
    + destruct (Z.ltb_spec (idx + 1) 0); [lia|].
      apply lookup_lt_is_Some. lia.
    + destruct (Z.ltb_spec idx 0); [lia|done].
  - destruct (Z.ltb_spec 0 idx); simpl.
    + destruct (Z.ltb_spec (idx - 1) 0); [lia|].
      apply lookup_lt_is_Some. lia.
    + destruct (Z.ltb_spec idx 0); [lia|done].
  - destruct (Z.ltb_spec idx (Z.of_nat (length (combinations results)) - 1));
      simpl; lia.
  - destruct (Z.ltb_spec 0 idx); simpl; lia.
Qed.

Lemma navigation_stays_in_range_witness :
  is_Some (currentCombinationOf
             (nextCombination
                {| scheduleResults :=
                     Some (generateNonConflictingSchedules [Sample.cprg305]
                             {[ "CPRG305"%string ]} defaultFilters Sample.noRandom);
                   currentCombinationIndex := 0 |})).
Proof.
  apply (navigation_stays_in_range
           {| scheduleResults :=
                Some (generateNonConflictingSchedules [Sample.cprg305]
                        {[ "CPRG305"%string ]} defaultFilters Sample.noRandom);
              currentCombinationIndex := 0 |}).
  vm_compute. eexists. reflexivity.
Defined.
